(** * Telescope client (src/modules/Telescope.cpp): shallow embedding

    The development follows the C++ file top-down: machine integers, the
    vector type, the position history, the socket state machine, the frame
    parser, the goto encoder and the factory with its two regular
    expressions.

    Modelling conventions.
    - [long long int], [int], [unsigned int] and [char] values are integers
      of [Z]; every narrowing conversion of the source is written out
      ([sint64], [sint32], [uint32], [uchar]).
    - [double] is idealised as a real number of [R]; the conversion of an
      integer to [double] is [IZR].
    - The two byte buffers are the lists of the bytes between the start of
      the array and its end pointer.
    - [positions] is the list of the 16 slots, [position_pointer] an index.
    - System calls are answered by the environment: their results are
      arguments of the embedded functions, and the calls that were issued
      are returned as a trace. *)

From Stdlib Require Import String Ascii ZArith List Bool Lia.
From Stdlib Require Import Reals Lra Psatz.
Import ListNotations.

Local Open Scope Z_scope.

(** ** Machine integers *)

Definition sint64 (z : Z) : Z := (z + 2 ^ 63) mod 2 ^ 64 - 2 ^ 63.
Definition sint32 (z : Z) : Z := (z + 2 ^ 31) mod 2 ^ 32 - 2 ^ 31.
Definition uint32 (z : Z) : Z := z mod 2 ^ 32.
Definition uint16 (z : Z) : Z := z mod 2 ^ 16.
Definition uchar (z : Z) : Z := z mod 2 ^ 8.

(** [0x7FFFFFFFFFFFFFFFLL], the timestamp of a slot that holds no sample. *)
Definition UNSET_MICROS : Z := 0x7FFFFFFFFFFFFFFF.

(** [sizeof(read_buff)], [sizeof(write_buff)] and the number of slots. *)
Definition BUFF_SIZE : Z := 120.
Definition NR_OF_POSITIONS : nat := 16.

(** ** Vec3d *)

Record Vec3d : Type := mkVec3d { vx : R; vy : R; vz : R }.

Definition vec_zero : Vec3d := mkVec3d 0 0 0.

Definition vec_add (a b : Vec3d) : Vec3d :=
  mkVec3d (vx a + vx b) (vy a + vy b) (vz a + vz b).

Definition vec_scale (a : Vec3d) (s : R) : Vec3d :=
  mkVec3d (vx a * s) (vy a * s) (vz a * s).

Definition lengthSquared (a : Vec3d) : R :=
  (vx a * vx a + vy a * vy a + vz a * vz a)%R.

Definition dot (a b : Vec3d) : R :=
  (vx a * vx b + vy a * vy b + vz a * vz b)%R.


(** ** The position history *)

Record Position : Type := mkPosition {
  server_micros : Z;
  client_micros : Z;
  pos : Vec3d;
  status : Z
}.

Definition unset_position : Position :=
  mkPosition UNSET_MICROS UNSET_MICROS vec_zero 0.

(** ** Sockets and the trace of system calls *)

Definition INVALID_SOCKET : Z := -1.
Definition IS_INVALID_SOCKET (fd : Z) : bool := fd <? 0.

Inductive Errno : Type :=
| EINTR
| EAGAIN
| EINPROGRESS
| EOTHER (code : Z).

Definition is_EINTR (e : Errno) : bool :=
  match e with EINTR => true | _ => false end.
Definition is_EAGAIN (e : Errno) : bool :=
  match e with EAGAIN => true | _ => false end.
Definition is_EINPROGRESS (e : Errno) : bool :=
  match e with EINPROGRESS => true | _ => false end.

Inductive SysCall : Type :=
| SysClose (fd : Z)
| SysSocket
| SysSetNonblocking (fd : Z)
| SysConnect (fd : Z)
| SysGetsockopt (fd : Z)
| SysSend (fd : Z) (bytes : list Z)
| SysRecv (fd : Z) (room : Z).

Definition fd_set : Type := list Z.
Definition FD_ISSET (fd : Z) (s : fd_set) : bool := existsb (Z.eqb fd) s.
Definition FD_SET (fd : Z) (s : fd_set) : fd_set := fd :: s.

Record sockaddr_in : Type := mkSockaddr {
  sin_family : Z;
  sin_port : Z;
  sin_addr : list Z
}.

Definition htons (x : Z) : Z :=
  let v := uint16 x in Z.lor (Z.shiftl (Z.land v 255) 8) (Z.shiftr v 8).
Definition ntohs (x : Z) : Z := htons x.

Definition AF_INET : Z := 2.

(** ** class TelescopeTcp *)

Record TelescopeTcp : Type := mkTelescopeTcp {
  address : sockaddr_in;
  fd : Z;
  wait_for_connection_establishment : bool;
  end_of_timeout : Z;
  read_buff : list Z;
  write_buff : list Z;
  time_delay : Z;
  positions : list Position;
  position_pointer : nat
}.

Definition slot (t : TelescopeTcp) (i : nat) : Position :=
  nth i (positions t) unset_position.

Definition isConnected (t : TelescopeTcp) : bool :=
  negb (IS_INVALID_SOCKET (fd t)) && negb (wait_for_connection_establishment t).

Definition isInitialized (t : TelescopeTcp) : bool :=
  negb (ntohs (sin_port (address t)) =? 0).

Definition hasKnownPosition (t : TelescopeTcp) : bool :=
  negb (client_micros (slot t (position_pointer t)) =? UNSET_MICROS).

(** The three states of the connection, read off [fd] and
    [wait_for_connection_establishment]. *)
Inductive ConnectionState : Type := Disconnected | Connecting | Connected.

Definition connection_state (t : TelescopeTcp) : ConnectionState :=
  if IS_INVALID_SOCKET (fd t) then Disconnected
  else if wait_for_connection_establishment t then Connecting
  else Connected.

(** [hangup]: close the socket if there is one, empty both buffers and
    set every slot of the history to the unset sample. *)
Definition hangup (t : TelescopeTcp) : TelescopeTcp * list SysCall :=
  ({| address := address t;
      fd := if IS_INVALID_SOCKET (fd t) then fd t else INVALID_SOCKET;
      wait_for_connection_establishment := false;
      end_of_timeout := end_of_timeout t;
      read_buff := [];
      write_buff := [];
      time_delay := time_delay t;
      positions := repeat unset_position NR_OF_POSITIONS;
      position_pointer := 0 |},
   if IS_INVALID_SOCKET (fd t) then [] else [SysClose (fd t)]).

(** ** getObsJ2000Pos *)

Definition prev_index (p : nat) : nat :=
  match p with
  | O => NR_OF_POSITIONS - 1
  | S q => q
  end.

(** [p->pos * (now - pp->client_micros) + pp->pos * (p->client_micros - now)] *)
Definition blend (newer older : Position) (now : Z) : Vec3d :=
  vec_add (vec_scale (pos newer) (IZR (sint64 (now - client_micros older))))
          (vec_scale (pos older) (IZR (sint64 (client_micros newer - now)))).

(** The body of the do-while loop; [fuel] bounds the number of rounds, the
    loop itself stops when [p] is back at [position_pointer]. *)
Fixpoint scan_back (fuel : nat) (t : TelescopeTcp) (now : Z) (p : nat) : Vec3d :=
  match fuel with
  | O => pos (slot t p)
  | S fuel' =>
      let pp := prev_index p in
      if client_micros (slot t pp) =? UNSET_MICROS then pos (slot t p)
      else if (client_micros (slot t pp) <=? now)
              && (now <=? client_micros (slot t p)) then
        if negb (client_micros (slot t pp) =? client_micros (slot t p)) then
          let rval := blend (slot t p) (slot t pp) now in
          let f := lengthSquared rval in
          if Rlt_dec 0 f then vec_scale rval (1 / sqrt f)
          else pos (slot t p)
        else pos (slot t p)
      else if Nat.eqb pp (position_pointer t) then pos (slot t pp)
      else scan_back fuel' t now pp
  end.

(** [get_now] is the value returned by [GetNow()]. *)
Definition getObsJ2000Pos (t : TelescopeTcp) (get_now : Z) : Vec3d :=
  if client_micros (slot t (position_pointer t)) =? UNSET_MICROS then vec_zero
  else
    let now := sint64 (get_now - time_delay t) in
    scan_back NR_OF_POSITIONS t now (position_pointer t).

(** ** Record updates *)

Definition set_fd (v : Z) (t : TelescopeTcp) : TelescopeTcp :=
  mkTelescopeTcp (address t) v (wait_for_connection_establishment t)
    (end_of_timeout t) (read_buff t) (write_buff t) (time_delay t)
    (positions t) (position_pointer t).

Definition set_wait (v : bool) (t : TelescopeTcp) : TelescopeTcp :=
  mkTelescopeTcp (address t) (fd t) v
    (end_of_timeout t) (read_buff t) (write_buff t) (time_delay t)
    (positions t) (position_pointer t).

Definition set_end_of_timeout (v : Z) (t : TelescopeTcp) : TelescopeTcp :=
  mkTelescopeTcp (address t) (fd t) (wait_for_connection_establishment t)
    v (read_buff t) (write_buff t) (time_delay t)
    (positions t) (position_pointer t).

Definition set_read_buff (v : list Z) (t : TelescopeTcp) : TelescopeTcp :=
  mkTelescopeTcp (address t) (fd t) (wait_for_connection_establishment t)
    (end_of_timeout t) v (write_buff t) (time_delay t)
    (positions t) (position_pointer t).

Definition set_write_buff (v : list Z) (t : TelescopeTcp) : TelescopeTcp :=
  mkTelescopeTcp (address t) (fd t) (wait_for_connection_establishment t)
    (end_of_timeout t) (read_buff t) v (time_delay t)
    (positions t) (position_pointer t).

Definition set_history (ps : list Position) (i : nat) (t : TelescopeTcp)
  : TelescopeTcp :=
  mkTelescopeTcp (address t) (fd t) (wait_for_connection_establishment t)
    (end_of_timeout t) (read_buff t) (write_buff t) (time_delay t) ps i.

Fixpoint set_nth {A : Type} (i : nat) (x : A) (l : list A) : list A :=
  match l, i with
  | [], _ => []
  | _ :: l', O => x :: l'
  | y :: l', S i' => y :: set_nth i' x l'
  end.

(** ** Storing a decoded position (the body of [case 0] in performReading) *)

(** [position_pointer++; if (position_pointer >= end_position) position_pointer = positions;] *)
Definition next_index (p : nat) : nat :=
  if Nat.ltb (S p) NR_OF_POSITIONS then S p else O.

Definition angle_of_int (v : Z) : R := (IZR v * (PI / 2147483648))%R.

(** [cos] and [sin] are the functions on the real numbers: the vector is
    of length 1 exactly. The code's values are those of the C library on
    [double] and differ in the last bits (its sin(M_PI) is about 1.2e-16,
    not 0), so a property that turns on an exact cancellation between two
    directions is stated on the directions stored in the history, not on
    the angles they were computed from. *)
Definition sphe_to_rect (ra_int dec_int : Z) : Vec3d :=
  let ra := angle_of_int ra_int in
  let dec := angle_of_int dec_int in
  let cdec := cos dec in
  mkVec3d (cos ra * cdec) (sin ra * cdec) (sin dec).

Definition store_position (srv ra_int dec_int st get_now : Z) (t : TelescopeTcp)
  : TelescopeTcp :=
  let i := next_index (position_pointer t) in
  set_history
    (set_nth i (mkPosition srv get_now (sphe_to_rect ra_int dec_int) st)
       (positions t))
    i t.

(** ** The frame parser of performReading *)

Definition byte_at (p : list Z) (i : nat) : Z := uchar (nth i p 0).

(** The fields of a frame, each read byte by byte as in the source. *)
Definition packet_size (p : list Z) : Z :=
  Z.lor (byte_at p 0) (Z.shiftl (byte_at p 1) 8).

Definition packet_type (p : list Z) : Z :=
  Z.lor (byte_at p 2) (Z.shiftl (byte_at p 3) 8).

Definition packet_server_micros (p : list Z) : Z :=
  sint64
    (Z.lor (Z.lor (Z.lor (Z.lor (Z.lor (Z.lor (Z.lor
       (byte_at p 4)
       (Z.shiftl (byte_at p 5) 8))
       (Z.shiftl (byte_at p 6) 16))
       (Z.shiftl (byte_at p 7) 24))
       (Z.shiftl (byte_at p 8) 32))
       (Z.shiftl (byte_at p 9) 40))
       (Z.shiftl (byte_at p 10) 48))
       (Z.shiftl (byte_at p 11) 56)).

Definition le_uint32 (p : list Z) (off : nat) : Z :=
  Z.lor (Z.lor (Z.lor
    (byte_at p off)
    (Z.shiftl (byte_at p (off + 1)) 8))
    (Z.shiftl (byte_at p (off + 2)) 16))
    (Z.shiftl (byte_at p (off + 3)) 24).

Definition packet_ra_int (p : list Z) : Z := uint32 (le_uint32 p 12).
Definition packet_dec_int (p : list Z) : Z := sint32 (le_uint32 p 16).
Definition packet_status (p : list Z) : Z := sint32 (le_uint32 p 20).

(** After the loop: the unread bytes are moved to the front of the buffer
    (or the buffer is emptied when nothing is left). *)
Definition compact (p : list Z) (t : TelescopeTcp) : TelescopeTcp :=
  set_read_buff p t.

(** [p] holds the bytes from the parse pointer to [read_buff_end]; [clock k]
    is the answer of the [k]-th call of [GetNow()] during this read. *)
Fixpoint parse_packets (fuel : nat) (clock : nat -> Z) (k : nat)
    (p : list Z) (t : TelescopeTcp) : TelescopeTcp * list SysCall :=
  match fuel with
  | O => (compact p t, [])
  | S fuel' =>
      if 2 <=? Z.of_nat (length p) then
        let size := packet_size p in
        if (size >? BUFF_SIZE) || (size <? 4) then hangup t
        else if size >? Z.of_nat (length p) then (compact p t, [])
        else
          let type := packet_type p in
          if type =? 0 then
            if size <? 24 then hangup t
            else
              parse_packets fuel' clock (S k) (skipn (Z.to_nat size) p)
                (store_position (packet_server_micros p) (packet_ra_int p)
                   (packet_dec_int p) (packet_status p) (clock k) t)
          else parse_packets fuel' clock k (skipn (Z.to_nat size) p) t
      else (compact p t, [])
  end.

(** The loop with the fuel it needs: every round consumes at least four
    bytes. *)
Definition parse_from (clock : nat -> Z) (k : nat) (p : list Z)
    (t : TelescopeTcp) : TelescopeTcp * list SysCall :=
  parse_packets (length p) clock k p t.

Definition parse_buffer (clock : nat -> Z) (p : list Z) (t : TelescopeTcp)
  : TelescopeTcp * list SysCall :=
  parse_from clock 0 p t.

(** The answer of [recv]: an error with its [errno], or the bytes that were
    placed at [read_buff_end], as many as [recv] returns (none when the peer
    has closed). *)
Inductive RecvResult : Type :=
| RecvError (e : Errno)
| RecvBytes (data : list Z).

Definition with_call (c : SysCall) (r : TelescopeTcp * list SysCall)
  : TelescopeTcp * list SysCall :=
  (fst r, c :: snd r).

Definition performReading (clock : nat -> Z) (r : RecvResult) (t : TelescopeTcp)
  : TelescopeTcp * list SysCall :=
  let to_read := BUFF_SIZE - Z.of_nat (length (read_buff t)) in
  with_call (SysRecv (fd t) to_read)
    match r with
    | RecvError e =>
        if negb (is_EINTR e) && negb (is_EAGAIN e) then hangup t else (t, [])
    | RecvBytes [] => hangup t
    | RecvBytes data => parse_buffer clock (read_buff t ++ data) t
    end.

(** ** performWriting *)

Inductive SendResult : Type :=
| SendError (e : Errno)
| SendCount (rc : nat).

Definition performWriting (r : SendResult) (t : TelescopeTcp)
  : TelescopeTcp * list SysCall :=
  let to_write := length (write_buff t) in
  with_call (SysSend (fd t) (write_buff t))
    match r with
    | SendError e =>
        if negb (is_EINTR e) && negb (is_EAGAIN e) then hangup t else (t, [])
    | SendCount O => (t, [])
    | SendCount rc =>
        if Nat.leb to_write rc then (set_write_buff [] t, [])
        else (set_write_buff (skipn rc (write_buff t)) t, [])
    end.

(** ** telescopeGoto *)

Definition floor (x : R) : Z := Int_part x.

Definition atan2 (y x : R) : R :=
  if Rlt_dec 0 x then atan (y / x)
  else if Rlt_dec x 0 then
    if Rle_dec 0 y then (atan (y / x) + PI)%R else (atan (y / x) - PI)%R
  else if Rlt_dec 0 y then (PI / 2)%R
  else if Rlt_dec y 0 then (- (PI / 2))%R
  else 0%R.

(** [*write_buff_end++ = v; v >>= 8;] repeated [n] times. *)
Fixpoint le_bytes (n : nat) (v : Z) : list Z :=
  match n with
  | O => []
  | S n' => uchar v :: le_bytes n' (Z.shiftr v 8)
  end.

Definition goto_ra_int (j2000_pos : Vec3d) : Z :=
  let ra := atan2 (vy j2000_pos) (vx j2000_pos) in
  uint32 (floor (0.5 + ra * (2147483648 / PI))).

Definition goto_dec_int (j2000_pos : Vec3d) : Z :=
  let dec := atan2 (vz j2000_pos)
               (sqrt (vx j2000_pos * vx j2000_pos + vy j2000_pos * vy j2000_pos)) in
  sint32 (floor (0.5 + dec * (2147483648 / PI))).

Definition goto_packet (j2000_pos : Vec3d) (get_now : Z) : list Z :=
  [20; 0] ++ [0; 0] ++ le_bytes 8 get_now
    ++ le_bytes 4 (goto_ra_int j2000_pos)
    ++ le_bytes 4 (goto_dec_int j2000_pos).

Definition telescopeGoto (j2000_pos : Vec3d) (get_now : Z) (t : TelescopeTcp)
  : TelescopeTcp :=
  if isConnected t then
    if Z.of_nat (length (write_buff t)) + 20 <? BUFF_SIZE then
      set_write_buff (write_buff t ++ goto_packet j2000_pos get_now) t
    else t
  else t.

(** ** prepareSelectFds *)

(** What the environment answers during one call of [prepareSelectFds]:
    the clock, [socket()], [SET_NONBLOCKING_MODE] and [connect()] with its
    [errno]. *)
Record ConnectAnswers : Type := mkConnectAnswers {
  ans_now : Z;
  ans_socket : Z;
  ans_nonblocking : Z;
  ans_connect : Z;
  ans_connect_errno : Errno
}.

Record SelectFds : Type := mkSelectFds {
  sel_read : fd_set;
  sel_write : fd_set;
  sel_max : Z
}.

Definition prepareSelectFds (a : ConnectAnswers) (s : SelectFds)
    (t : TelescopeTcp) : TelescopeTcp * SelectFds * list SysCall :=
  if IS_INVALID_SOCKET (fd t) then
    let now := ans_now a in
    if now <? end_of_timeout t then (t, s, [])
    else
      let t1 := set_fd (ans_socket a)
                  (set_end_of_timeout (sint64 (now + 5000000)) t) in
      if IS_INVALID_SOCKET (fd t1) then (t1, s, [SysSocket])
      else if negb (ans_nonblocking a =? 0) then
        (fst (hangup t1), s,
         [SysSocket; SysSetNonblocking (fd t1)] ++ snd (hangup t1))
      else if negb (ans_connect a =? 0) then
        if negb (is_EINPROGRESS (ans_connect_errno a))
           && negb (is_EAGAIN (ans_connect_errno a)) then
          (fst (hangup t1), s,
           [SysSocket; SysSetNonblocking (fd t1); SysConnect (fd t1)]
             ++ snd (hangup t1))
        else
          (set_wait true t1, s,
           [SysSocket; SysSetNonblocking (fd t1); SysConnect (fd t1)])
      else
        (set_wait false t1, s,
         [SysSocket; SysSetNonblocking (fd t1); SysConnect (fd t1)])
  else
    let fd_max := if sel_max s <? fd t then fd t else sel_max s in
    if wait_for_connection_establishment t then
      let now := ans_now a in
      if now >? end_of_timeout t then
        let t1 := set_end_of_timeout (sint64 (now + 1000000)) t in
        (fst (hangup t1), mkSelectFds (sel_read s) (sel_write s) fd_max,
         snd (hangup t1))
      else
        (t, mkSelectFds (sel_read s) (FD_SET (fd t) (sel_write s)) fd_max, [])
    else
      let w := if 0 <? Z.of_nat (length (write_buff t))
               then FD_SET (fd t) (sel_write s) else sel_write s in
      (t, mkSelectFds (FD_SET (fd t) (sel_read s)) w fd_max, []).

(** ** handleSelectFds *)

(** The answer of [getsockopt(fd,SOL_SOCKET,SO_ERROR,...)]: its return
    value and the pending error it stores. *)
Record GetsockoptAnswer : Type := mkGetsockoptAnswer {
  gso_return : Z;
  gso_err : Z
}.

Record IoAnswers : Type := mkIoAnswers {
  io_getsockopt : GetsockoptAnswer;
  io_send : SendResult;
  io_recv : RecvResult;
  io_clock : nat -> Z
}.

Definition handleSelectFds (a : IoAnswers) (read_fds write_fds : fd_set)
    (t : TelescopeTcp) : TelescopeTcp * list SysCall :=
  if negb (IS_INVALID_SOCKET (fd t)) then
    if wait_for_connection_establishment t then
      if FD_ISSET (fd t) write_fds then
        let t1 := set_wait false t in
        with_call (SysGetsockopt (fd t))
          (if negb (gso_return (io_getsockopt a) =? 0) then hangup t1
           else if negb (gso_err (io_getsockopt a) =? 0) then hangup t1
           else (t1, []))
      else (t, [])
    else
      let r1 := if FD_ISSET (fd t) write_fds
                then performWriting (io_send a) t else (t, []) in
      let t1 := fst r1 in
      if negb (IS_INVALID_SOCKET (fd t1)) && FD_ISSET (fd t1) read_fds then
        let r2 := performReading (io_clock a) (io_recv a) t1 in
        (fst r2, snd r1 ++ snd r2)
      else r1
  else (t, []).

(** ** Strings of the factory

    A [QString] is modelled by a [string] of one-byte characters.
    [is_space] is [QChar::isSpace] on that range (tab to carriage return,
    space, no-break space) and [is_digit] is the class [\d]. *)

Definition char_code (c : ascii) : Z := Z.of_nat (nat_of_ascii c).

Definition is_colon (c : ascii) : bool := char_code c =? 58.
Definition is_digit (c : ascii) : bool :=
  (48 <=? char_code c) && (char_code c <=? 57).
Definition is_space (c : ascii) : bool :=
  ((9 <=? char_code c) && (char_code c <=? 13))
  || (char_code c =? 32) || (char_code c =? 160).

(** [split_colon s] cuts [s] at its first colon: the text [[^:]*] in front
    of it and everything behind it. *)
Fixpoint split_colon (s : string) : option (string * string) :=
  match s with
  | EmptyString => None
  | String c r =>
      if is_colon c then Some (EmptyString, r)
      else match split_colon r with
           | Some (a, b) => Some (String c a, b)
           | None => None
           end
  end.

Fixpoint trim_left (s : string) : string :=
  match s with
  | EmptyString => EmptyString
  | String c r => if is_space c then trim_left r else s
  end.

Fixpoint trim_right (s : string) : string :=
  match s with
  | EmptyString => EmptyString
  | String c r =>
      match trim_right r with
      | EmptyString => if is_space c then EmptyString else String c EmptyString
      | r' => String c r'
      end
  end.

(** [QString::trimmed] *)
Definition trimmed (s : string) : string := trim_right (trim_left s).

Fixpoint all_digits (s : string) : bool :=
  match s with
  | EmptyString => true
  | String c r => is_digit c && all_digits r
  end.

(** [\d+] *)
Definition digits1 (s : string) : bool :=
  match s with
  | EmptyString => false
  | _ => all_digits s
  end.

Fixpoint decimal_from (acc : Z) (s : string) : Z :=
  match s with
  | EmptyString => acc
  | String c r => decimal_from (10 * acc + (char_code c - 48)) r
  end.

Definition decimal_value (s : string) : Z := decimal_from 0 s.

Definition INT_MAX : Z := 2147483647.

(** [QString::toInt] on a string of digits: the value, or 0 when it does
    not fit an [int]. *)
Definition toInt (s : string) : Z :=
  let v := decimal_value s in if v <=? INT_MAX then v else 0.

(** [recRx.exactMatch] of [Telescope::create]: a run of characters other
    than a colon (capture 1), a colon, a second such run (capture 2) and,
    optionally, a colon followed by any text (capture 4, empty when the
    optional group does not take part). *)
Definition match_recRx (url : string) : option (string * string * string) :=
  match split_colon url with
  | None => None
  | Some (name, rest) =>
      match split_colon rest with
      | None => Some (name, rest, EmptyString)
      | Some (type, params) => Some (name, type, params)
      end
  end.

(** [paramRx.exactMatch] of the [TelescopeTcp] constructor: a run of
    characters other than a colon (capture 1), a colon, one or more digits
    (capture 2), a colon, one or more digits (capture 3). *)
Definition match_paramRx (params : string) : option (string * string * string) :=
  match split_colon params with
  | None => None
  | Some (host, rest) =>
      match split_colon rest with
      | None => None
      | Some (port, delay) =>
          if digits1 port && digits1 delay then Some (host, port, delay)
          else None
      end
  end.

(** ** The telescope variants and the factory *)

Record hostent : Type := mkHostent { h_length : Z; h_addr : list Z }.

Record TelescopeDummy : Type := mkTelescopeDummy {
  XYZ : Vec3d;
  desired_pos : Vec3d
}.

Definition TelescopeDummy_new : TelescopeDummy :=
  mkTelescopeDummy (mkVec3d 1 0 0) (mkVec3d 1 0 0).

(** [TelescopeDummy::prepareSelectFds], the tick of the simulator. *)
Definition dummy_prepareSelectFds (d : TelescopeDummy) : TelescopeDummy :=
  let v := vec_add (vec_scale (XYZ d) 31) (desired_pos d) in
  let lq := lengthSquared v in
  if Rlt_dec 0 lq then mkTelescopeDummy (vec_scale v (1 / sqrt lq)) (desired_pos d)
  else mkTelescopeDummy (desired_pos d) (desired_pos d).

Inductive TelescopeImpl : Type :=
| ImplDummy (d : TelescopeDummy)
| ImplTcp (t : TelescopeTcp).

Record Telescope : Type := mkTelescope {
  name : string;
  impl : TelescopeImpl
}.

(** Modelled from the spec: the base class [Telescope] of Telescope.hpp is
    not part of the sources; its [isInitialized] is taken to answer [true],
    as the simulator takes no parameters and is always usable. *)
Definition Telescope_isInitialized_default : bool := true.

Definition impl_isInitialized (i : TelescopeImpl) : bool :=
  match i with
  | ImplDummy _ => Telescope_isInitialized_default
  | ImplTcp t => isInitialized t
  end.

Definition set_time_delay (v : Z) (t : TelescopeTcp) : TelescopeTcp :=
  mkTelescopeTcp (address t) (fd t) (wait_for_connection_establishment t)
    (end_of_timeout t) (read_buff t) (write_buff t) v
    (positions t) (position_pointer t).

Definition set_address (v : sockaddr_in) (t : TelescopeTcp) : TelescopeTcp :=
  mkTelescopeTcp v (fd t) (wait_for_connection_establishment t)
    (end_of_timeout t) (read_buff t) (write_buff t) (time_delay t)
    (positions t) (position_pointer t).

(** The object before the constructor body runs: [fd(INVALID_SOCKET)]; the
    members that C++ leaves indeterminate are given as 0 or empty. *)
Definition TelescopeTcp_raw : TelescopeTcp :=
  mkTelescopeTcp (mkSockaddr 0 0 []) INVALID_SOCKET false 0 [] [] 0 [] 0.

Section Factory.

(** The resolver of the host system. *)
Variable gethostbyname : string -> option hostent.

Definition TelescopeTcp_new (params : string) : TelescopeTcp :=
  let t0 := fst (hangup TelescopeTcp_raw) in
  let t1 := set_address (mkSockaddr 0 (htons 0) []) t0 in
  match match_paramRx params with
  | None => t1
  | Some (host_text, port_text, delay_text) =>
      let host := trimmed host_text in
      let port := toInt port_text in
      let t2 := set_time_delay (toInt delay_text) t1 in
      if (port <=? 0) || (port >? 65535) then t2
      else if (time_delay t2 <=? 0) || (time_delay t2 >? 10000000) then t2
      else
        match gethostbyname host with
        | None => t2
        | Some hep =>
            if negb (h_length hep =? 4) then t2
            else
              set_history (repeat unset_position NR_OF_POSITIONS) 0
                (set_end_of_timeout (- 2 ^ 63)
                   (set_address
                      (mkSockaddr AF_INET (htons port) (firstn 4 (h_addr hep)))
                      t2))
        end
  end.

Definition create (url : string) : option Telescope :=
  match match_recRx url with
  | None => None
  | Some (name_text, type_text, params_text) =>
      let name := trimmed name_text in
      let type := trimmed type_text in
      let params := trimmed params_text in
      let rval :=
        if String.eqb type "Dummy"%string then
          Some (mkTelescope name (ImplDummy TelescopeDummy_new))
        else if String.eqb type "TCP"%string then
          Some (mkTelescope name (ImplTcp (TelescopeTcp_new params)))
        else None in
      match rval with
      | Some r => if impl_isInitialized (impl r) then Some r else None
      | None => None
      end
  end.

End Factory.

(** ** Notions used in the statements *)

(** [back p j]: the index reached from [p] by [j] steps towards older
    samples. *)
Definition back (p : nat) (j : nat) : nat := Nat.iter j prev_index p.

(** Number of backward steps from [p] that lead to [ptr] (16 for [ptr]
    itself: a full turn). *)
Definition ring_distance (ptr p : nat) : nat :=
  if Nat.ltb ptr p then p - ptr else p + 16 - ptr.

(** The pair (older, newer) lets the scan go on: the older slot holds a
    sample and the two receipt times do not bracket [now]. *)
Definition passes (t : TelescopeTcp) (now : Z) (older newer : nat) : Prop :=
  client_micros (slot t older) <> UNSET_MICROS
  /\ ~ (client_micros (slot t older) <= now <= client_micros (slot t newer)).

(** A decoded position frame together with the clock value at its
    receipt. *)
Record Sample : Type := mkSample {
  smp_server : Z;
  smp_ra : Z;
  smp_dec : Z;
  smp_status : Z;
  smp_now : Z
}.

Definition sample_position (s : Sample) : Position :=
  mkPosition (smp_server s) (smp_now s)
    (sphe_to_rect (smp_ra s) (smp_dec s)) (smp_status s).

Definition insert_sample (t : TelescopeTcp) (s : Sample) : TelescopeTcp :=
  store_position (smp_server s) (smp_ra s) (smp_dec s) (smp_status s)
    (smp_now s) t.

Definition insert_samples (l : list Sample) (t : TelescopeTcp) : TelescopeTcp :=
  fold_left insert_sample l t.

(** The history holds the samples [l] (oldest first): walking back from the
    current slot meets them newest first, then unset slots. *)
Definition history_holds (t : TelescopeTcp) (l : list Sample) : Prop :=
  length (positions t) = 16%nat
  /\ (position_pointer t < 16)%nat
  /\ forall j, (j < 16)%nat ->
       slot t (back (position_pointer t) j)
       = nth j (map sample_position (rev l)) unset_position.

(** The samples that a history of sixteen slots still holds after [l] was
    received, newest first. *)
Definition retained (l : list Sample) : list Sample := firstn 16 (rev l).

(** ** The descriptor grammar, stated on strings *)

Fixpoint no_colon (s : string) : bool :=
  match s with
  | EmptyString => true
  | String c r => negb (is_colon c) && no_colon r
  end.

(** [url] reads [name:type] (then [params] is empty) or
    [name:type:params], with no colon in [name] and [type]. *)
Definition descriptor_grammar (url name type params : string) : Prop :=
  no_colon name = true /\ no_colon type = true
  /\ ((url = (name ++ ":" ++ type)%string /\ params = EmptyString)
      \/ url = (name ++ ":" ++ type ++ ":" ++ params)%string).

(** [params] reads [host:port:delay] with decimal [port] in [1,65535] and
    decimal [delay] in [1,10000000]. *)
Definition stream_params (params host port delay : string) : Prop :=
  params = (host ++ ":" ++ port ++ ":" ++ delay)%string
  /\ no_colon host = true /\ digits1 port = true /\ digits1 delay = true
  /\ 1 <= decimal_value port <= 65535
  /\ 1 <= decimal_value delay <= 10000000.

(** What [create] accepts: the type and the parameters are looked at after
    trimming, and the host of a TCP telescope must resolve to an address of
    four bytes. *)
Definition accepts (gethostbyname : string -> option hostent) (url : string)
  : Prop :=
  exists name type params,
    descriptor_grammar url name type params
    /\ (trimmed type = "Dummy"%string
        \/ (trimmed type = "TCP"%string
            /\ exists host port delay hep,
                 stream_params (trimmed params) host port delay
                 /\ gethostbyname (trimmed host) = Some hep
                 /\ h_length hep = 4)).

(** The condition as the specification words it: grammar, known type and
    parameter ranges only. *)
Definition valid_as_specified (url : string) : Prop :=
  exists name type params,
    descriptor_grammar url name type params
    /\ (type = "Dummy"%string
        \/ (type = "TCP"%string
            /\ exists host port delay, stream_params params host port delay)).

(** ** The calls made on a client, and what every state satisfies *)

(** One call of the host application on a TCP telescope, with what the
    environment answers during it. *)
Inductive Call : Type :=
| CallPrepare (a : ConnectAnswers) (s : SelectFds)
| CallHandle (a : IoAnswers) (read_fds write_fds : fd_set)
| CallGoto (j2000_pos : Vec3d) (get_now : Z).

Definition call_result (c : Call) (t : TelescopeTcp)
  : TelescopeTcp * list SysCall :=
  match c with
  | CallPrepare a s =>
      (fst (fst (prepareSelectFds a s t)), snd (prepareSelectFds a s t))
  | CallHandle a r w => handleSelectFds a r w t
  | CallGoto v get_now => (telescopeGoto v get_now t, [])
  end.

(** A sequence of calls: the final state and the system calls issued. *)
Fixpoint run (calls : list Call) (t : TelescopeTcp)
  : TelescopeTcp * list SysCall :=
  match calls with
  | [] => (t, [])
  | c :: rest =>
      (fst (run rest (fst (call_result c t))),
       snd (call_result c t) ++ snd (run rest (fst (call_result c t))))
  end.

(** The history has its sixteen slots and the cursor points into it. *)
Definition history_wf (t : TelescopeTcp) : Prop :=
  length (positions t) = 16%nat /\ (position_pointer t < 16)%nat.

(** Every slot that holds a sample holds a vector of length 1. *)
Definition directions_unit (t : TelescopeTcp) : Prop :=
  forall i, client_micros (slot t i) <> UNSET_MICROS ->
            lengthSquared (pos (slot t i)) = 1%R.

(** Neither buffer is ever full. *)
Definition buffers_bounded (t : TelescopeTcp) : Prop :=
  Z.of_nat (length (read_buff t)) < BUFF_SIZE
  /\ Z.of_nat (length (write_buff t)) < BUFF_SIZE.

Definition client_inv (t : TelescopeTcp) : Prop :=
  history_wf t /\ directions_unit t /\ buffers_bounded t.

(** The descriptors that a trace closes, in order. *)
Fixpoint closed_fds (tr : list SysCall) : list Z :=
  match tr with
  | [] => []
  | SysClose fd :: rest => fd :: closed_fds rest
  | _ :: rest => closed_fds rest
  end.

(** ** Whole frames *)

(** A frame as the parser accepts it: its length field states its length,
    which lies in [4, 120], and a frame of type 0 has at least 24 bytes. *)
Definition frame_ok (f : list Z) : Prop :=
  packet_size f = Z.of_nat (length f)
  /\ 4 <= Z.of_nat (length f) <= BUFF_SIZE
  /\ (packet_type f = 0 -> 24 <= Z.of_nat (length f)).

(** The sample that a position frame carries, received at [now]. *)
Definition frame_sample (f : list Z) (now : Z) : Sample :=
  mkSample (packet_server_micros f) (packet_ra_int f) (packet_dec_int f)
    (packet_status f) now.

(** The samples of a sequence of frames: one for each frame of type 0, each
    stamped with the next reading of the clock. *)
Fixpoint frames_samples (clock : nat -> Z) (k : nat) (frames : list (list Z))
  : list Sample :=
  match frames with
  | [] => []
  | f :: rest =>
      if packet_type f =? 0
      then frame_sample f (clock k) :: frames_samples clock (S k) rest
      else frames_samples clock k rest
  end.

(** Bytes that do not yet hold a whole frame and are not refused. *)
Definition incomplete (p : list Z) : Prop :=
  Z.of_nat (length p) < 2
  \/ (4 <= packet_size p <= BUFF_SIZE /\ Z.of_nat (length p) < packet_size p).

(** ** Sockets held and opened *)

(** The socket that the client holds, if any. *)
Definition held (t : TelescopeTcp) : list Z :=
  if IS_INVALID_SOCKET (fd t) then [] else [fd t].

(** The socket that [socket()] returns during a call, if the call gets to
    it and it is valid. *)
Definition opened_by (c : Call) (t : TelescopeTcp) : list Z :=
  match c with
  | CallPrepare a s =>
      if IS_INVALID_SOCKET (fd t)
         && negb (ans_now a <? end_of_timeout t)
         && negb (IS_INVALID_SOCKET (ans_socket a))
      then [ans_socket a] else []
  | _ => []
  end.

Fixpoint opened_run (calls : list Call) (t : TelescopeTcp) : list Z :=
  match calls with
  | [] => []
  | c :: rest => opened_by c t ++ opened_run rest (fst (call_result c t))
  end.

(** ** A burst of goto commands *)

(** The calls [telescopeGoto] for the directions and clock values of
    [cmds], one after the other. *)
Definition gotos (cmds : list (Vec3d * Z)) (t : TelescopeTcp) : TelescopeTcp :=
  fold_left (fun t c => telescopeGoto (fst c) (snd c) t) cmds t.

(** ** Example data *)

(** A resolver that knows the loopback address only. *)
Definition loopback_resolver (host : string) : option hostent :=
  if String.eqb host "127.0.0.1"%string then Some (mkHostent 4 [127; 0; 0; 1])
  else None.

Definition example_client : TelescopeTcp :=
  TelescopeTcp_new loopback_resolver "127.0.0.1:10001:500000"%string.

Definition default_sample : Sample := mkSample 0 0 0 0 0.

(** Twenty samples received at the times 1 to 20; the last one points to
    the pole, the others to the origin of right ascension on the equator. *)
Definition twenty_samples : list Sample :=
  map (fun i => mkSample (Z.of_nat i) 0
                  (if Nat.eqb i 20 then 1073741824 else 0) 0 (Z.of_nat i))
      (seq 1 20).

(** A client with an established connection on descriptor 3, made at the
    time 0 (so that the timer stands at 5 seconds). *)
Definition connected_client : TelescopeTcp :=
  set_fd 3 (set_end_of_timeout 5000000 example_client).

(** The client after a first tick at the time 0 on which [connect] answers
    that the connection is in progress. *)
Definition connecting_client : TelescopeTcp :=
  fst (fst (prepareSelectFds (mkConnectAnswers 0 3 0 (-1) EINPROGRESS)
              (mkSelectFds [] [] 0) example_client)).


(** A short session: a tick at the time 0 on which [connect] succeeds at
    once on the descriptor 3, then a readable socket that delivers one
    position frame of 24 bytes, read at the time 7. *)
Definition example_session : list Call :=
  [ CallPrepare (mkConnectAnswers 0 3 0 0 EINPROGRESS) (mkSelectFds [] [] 0);
    CallHandle
      (mkIoAnswers (mkGetsockoptAnswer 0 0) (SendCount 0)
         (RecvBytes [24; 0; 0; 0; 1; 0; 0; 0; 0; 0; 0; 0;
                     0; 0; 0; 64; 0; 0; 0; 0; 0; 0; 0; 0])
         (fun _ => 7))
      [3] [] ].

(** * Properties *)

(** Splits a conjunction into its parts, without touching the parts. *)
Ltac splits :=
  repeat match goal with |- _ /\ _ => split end.

(** ** Machine integers and the empty history *)

Lemma sint64_small (z : Z) :
  - 2 ^ 63 <= z < 2 ^ 63 -> sint64 z = z.
Proof.
  intros H. unfold sint64.
  rewrite Z.mod_small by lia. lia.
Qed.

Lemma slot_hangup (t : TelescopeTcp) (i : nat) :
  slot (fst (hangup t)) i = unset_position.
Proof.
  unfold slot, hangup. cbn [fst positions]. apply nth_repeat.
Qed.

Lemma hangup_state (t : TelescopeTcp) :
  IS_INVALID_SOCKET (fd (fst (hangup t))) = true
  /\ connection_state (fst (hangup t)) = Disconnected
  /\ read_buff (fst (hangup t)) = []
  /\ write_buff (fst (hangup t)) = []
  /\ end_of_timeout (fst (hangup t)) = end_of_timeout t
  /\ positions (fst (hangup t)) = repeat unset_position NR_OF_POSITIONS
  /\ position_pointer (fst (hangup t)) = O.
Proof.
  unfold connection_state, hangup. cbn [fst fd read_buff write_buff
    end_of_timeout positions position_pointer].
  destruct (IS_INVALID_SOCKET (fd t)) eqn:E.
  - rewrite E. repeat split; reflexivity.
  - cbn. repeat split; reflexivity.
Qed.

Lemma lengthSquared_zero : lengthSquared vec_zero = 0%R.
Proof. unfold lengthSquared, vec_zero. cbn. ring. Qed.

(** ** The ring of sixteen slots *)

Lemma prev_index_cases (ptr p : nat) :
  (p < 16)%nat -> (ptr < 16)%nat ->
  (prev_index p < 16)%nat
  /\ ((prev_index p = ptr /\ ring_distance ptr p = 1%nat)
      \/ (prev_index p <> ptr
          /\ S (ring_distance ptr (prev_index p)) = ring_distance ptr p)).
Proof.
  intros Hp Hptr. unfold ring_distance, prev_index, NR_OF_POSITIONS.
  destruct p as [|q].
  - change (16 - 1)%nat with 15%nat.
    destruct (Nat.ltb_spec ptr 0); destruct (Nat.ltb_spec ptr 15); lia.
  - destruct (Nat.ltb_spec ptr (S q)); destruct (Nat.ltb_spec ptr q); lia.
Qed.

Lemma ring_distance_self (ptr : nat) : ring_distance ptr ptr = 16%nat.
Proof.
  unfold ring_distance. destruct (Nat.ltb_spec ptr ptr); lia.
Qed.

Lemma ring_distance_pos (ptr p : nat) :
  (ptr < 16)%nat -> (1 <= ring_distance ptr p)%nat.
Proof.
  intros H. unfold ring_distance. destruct (Nat.ltb_spec ptr p); lia.
Qed.

Lemma back_S (p : nat) (j : nat) : back p (S j) = prev_index (back p j).
Proof. reflexivity. Qed.

Lemma back_prev (p : nat) (j : nat) : back p (S j) = back (prev_index p) j.
Proof. unfold back. apply Nat.iter_succ_r. Qed.

Lemma back_distance (ptr : nat) (m : nat) :
  (ptr < 16)%nat -> (m <= 15)%nat ->
  (back ptr m < 16)%nat /\ (ring_distance ptr (back ptr m) + m = 16)%nat.
Proof.
  intros Hptr. induction m as [|m IH]; intros Hm.
  - cbn. rewrite ring_distance_self. lia.
  - destruct (IH ltac:(lia)) as [Hlt Hd]. rewrite back_S.
    destruct (prev_index_cases ptr (back ptr m) Hlt Hptr) as [H1 [[_ H2]|[_ H2]]];
      split; auto; lia.
Qed.

Lemma back_not_ptr (ptr : nat) (m : nat) :
  (ptr < 16)%nat -> (1 <= m <= 15)%nat -> back ptr m <> ptr.
Proof.
  intros Hptr Hm E. destruct (back_distance ptr m Hptr ltac:(lia)) as [_ Hd].
  rewrite E, ring_distance_self in Hd. lia.
Qed.

Lemma back_full_turn (ptr : nat) : (ptr < 16)%nat -> back ptr 16 = ptr.
Proof.
  intros Hptr. destruct (back_distance ptr 15 Hptr ltac:(lia)) as [Hlt Hd].
  rewrite back_S.
  destruct (prev_index_cases ptr (back ptr 15) Hlt Hptr) as [_ [[H _]|[_ H]]];
    [exact H|].
  pose proof (ring_distance_pos ptr (prev_index (back ptr 15)) Hptr). lia.
Qed.

(** ** The backward scan *)

Lemma scan_back_pass (fuel : nat) (t : TelescopeTcp) (now : Z) (p : nat) :
  passes t now (prev_index p) p ->
  scan_back (S fuel) t now p
  = if Nat.eqb (prev_index p) (position_pointer t)
    then pos (slot t (prev_index p))
    else scan_back fuel t now (prev_index p).
Proof.
  intros [Hset Hbr]. cbn [scan_back].
  destruct (Z.eqb_spec (client_micros (slot t (prev_index p))) UNSET_MICROS);
    [contradiction|].
  destruct (Z.leb_spec (client_micros (slot t (prev_index p))) now);
    destruct (Z.leb_spec now (client_micros (slot t p)));
    cbn [andb]; try reflexivity.
  exfalso. apply Hbr. lia.
Qed.

Lemma scan_back_skip (t : TelescopeTcp) (now : Z) (k : nat) :
  forall (p : nat) (fuel : nat),
    (forall j, (j < k)%nat ->
               passes t now (back p (S j)) (back p j)
               /\ back p (S j) <> position_pointer t) ->
    scan_back (k + fuel) t now p = scan_back fuel t now (back p k).
Proof.
  induction k as [|k IH]; intros p fuel H; [reflexivity|].
  cbn [Nat.add]. destruct (H 0%nat ltac:(lia)) as [Hp Hn].
  cbn [back Nat.iter] in Hp, Hn.
  rewrite scan_back_pass by exact Hp.
  destruct (Nat.eqb_spec (prev_index p) (position_pointer t)); [contradiction|].
  rewrite back_prev. apply IH. intros j Hj.
  rewrite <- !back_prev. apply H. lia.
Qed.

(** A scan that meets neither an unset slot nor a bracket goes once round
    the ring and ends on the current slot. *)
Lemma scan_back_full_turn (t : TelescopeTcp) (now : Z) :
  (position_pointer t < 16)%nat ->
  (forall j, (j < 16)%nat ->
             passes t now (back (position_pointer t) (S j))
                    (back (position_pointer t) j)) ->
  scan_back NR_OF_POSITIONS t now (position_pointer t)
  = pos (slot t (position_pointer t)).
Proof.
  intros Hptr H. change NR_OF_POSITIONS with (15 + 1)%nat.
  rewrite scan_back_skip.
  - rewrite scan_back_pass by (rewrite <- back_S; apply H; lia).
    rewrite <- back_S, back_full_turn by exact Hptr.
    now rewrite Nat.eqb_refl.
  - intros j Hj. split; [apply H; lia|]. apply back_not_ptr; lia.
Qed.

(** A scan that meets an unset slot after [k] passing pairs ends on the
    oldest sample that was passed. *)
Lemma scan_back_stops_at_unset (t : TelescopeTcp) (now : Z) (k : nat) :
  (position_pointer t < 16)%nat -> (k <= 15)%nat ->
  (forall j, (j < k)%nat ->
             passes t now (back (position_pointer t) (S j))
                    (back (position_pointer t) j)) ->
  client_micros (slot t (back (position_pointer t) (S k))) = UNSET_MICROS ->
  scan_back NR_OF_POSITIONS t now (position_pointer t)
  = pos (slot t (back (position_pointer t) k)).
Proof.
  intros Hptr Hk H Hu.
  replace NR_OF_POSITIONS with (k + S (15 - k))%nat
    by (unfold NR_OF_POSITIONS; lia).
  rewrite scan_back_skip.
  - cbn [scan_back]. rewrite <- back_S, Hu, Z.eqb_refl. reflexivity.
  - intros j Hj. split; [apply H; lia|]. apply back_not_ptr; lia.
Qed.

(** A scan that meets a bracket with distinct receipt times after [k]
    passing pairs blends the two samples of that pair. *)
Lemma scan_back_bracket (t : TelescopeTcp) (now : Z) (k : nat) :
  (position_pointer t < 16)%nat -> (k <= 15)%nat ->
  (forall j, (j < k)%nat ->
             passes t now (back (position_pointer t) (S j))
                    (back (position_pointer t) j)) ->
  let newer := slot t (back (position_pointer t) k) in
  let older := slot t (back (position_pointer t) (S k)) in
  client_micros older <> UNSET_MICROS ->
  client_micros older <= now <= client_micros newer ->
  client_micros older <> client_micros newer ->
  scan_back NR_OF_POSITIONS t now (position_pointer t)
  = if Rlt_dec 0 (lengthSquared (blend newer older now))
    then vec_scale (blend newer older now)
           (1 / sqrt (lengthSquared (blend newer older now)))
    else pos newer.
Proof.
  intros Hptr Hk H newer older Hset Hbr Hne.
  replace NR_OF_POSITIONS with (k + S (15 - k))%nat
    by (unfold NR_OF_POSITIONS; lia).
  rewrite scan_back_skip.
  - cbn [scan_back]. rewrite <- back_S. fold newer older.
    destruct (Z.eqb_spec (client_micros older) UNSET_MICROS); [contradiction|].
    destruct (Z.leb_spec (client_micros older) now); [|lia].
    destruct (Z.leb_spec now (client_micros newer)); [|lia].
    cbn [andb].
    destruct (Z.eqb_spec (client_micros older) (client_micros newer));
      [contradiction|].
    reflexivity.
  - intros j Hj. split; [apply H; lia|]. apply back_not_ptr; lia.
Qed.

(** ** Filling the history *)

Lemma set_nth_length {A : Type} (i : nat) (x : A) (l : list A) :
  length (set_nth i x l) = length l.
Proof.
  revert i. induction l as [|y l IH]; intros [|i]; cbn; auto.
Qed.

Lemma nth_set_nth {A : Type} (i j : nat) (x d : A) (l : list A) :
  (i < length l)%nat ->
  nth j (set_nth i x l) d = if Nat.eqb j i then x else nth j l d.
Proof.
  revert i j. induction l as [|y l IH]; intros i j H; cbn in H; [lia|].
  destruct i as [|i], j as [|j]; cbn; auto.
  apply IH. lia.
Qed.

Lemma next_index_lt (p : nat) : (next_index p < 16)%nat.
Proof.
  unfold next_index, NR_OF_POSITIONS. destruct (Nat.ltb_spec (S p) 16); lia.
Qed.

Lemma prev_next_index (p : nat) :
  (p < 16)%nat -> prev_index (next_index p) = p.
Proof.
  intros H. unfold next_index, NR_OF_POSITIONS.
  destruct (Nat.ltb_spec (S p) 16); cbn; lia.
Qed.

Lemma slot_insert_sample (s : Sample) (t : TelescopeTcp) (i : nat) :
  length (positions t) = 16%nat ->
  slot (insert_sample t s) i
  = if Nat.eqb i (next_index (position_pointer t))
    then sample_position s else slot t i.
Proof.
  intros H. unfold slot, insert_sample, store_position.
  cbn [positions set_history].
  apply nth_set_nth. rewrite H. apply next_index_lt.
Qed.

Lemma history_holds_hangup (t : TelescopeTcp) : history_holds (fst (hangup t)) [].
Proof.
  destruct (hangup_state t) as (_ & _ & _ & _ & _ & Hp & Hi).
  unfold history_holds. rewrite Hp, Hi, repeat_length.
  repeat split; try (unfold NR_OF_POSITIONS; lia).
  intros j _. rewrite slot_hangup. now destruct j.
Qed.

Lemma history_holds_insert (t : TelescopeTcp) (l : list Sample) (s : Sample) :
  history_holds t l -> history_holds (insert_sample t s) (l ++ [s]).
Proof.
  intros (Hlen & Hptr & Hslots). unfold history_holds.
  assert (Hp' : position_pointer (insert_sample t s)
                = next_index (position_pointer t)) by reflexivity.
  rewrite Hp'. split; [|split].
  - unfold insert_sample, store_position. cbn [positions set_history].
    now rewrite set_nth_length.
  - apply next_index_lt.
  - intros j Hj. rewrite rev_app_distr. cbn [rev app map].
    rewrite slot_insert_sample by exact Hlen.
    destruct j as [|j].
    + cbn [back Nat.iter nth]. now rewrite Nat.eqb_refl.
    + destruct (Nat.eqb_spec (back (next_index (position_pointer t)) (S j))
                  (next_index (position_pointer t))) as [E|_].
      * exfalso. revert E. apply back_not_ptr; [apply next_index_lt | lia].
      * rewrite back_prev, prev_next_index by exact Hptr.
        cbn [nth]. apply Hslots. lia.
Qed.

Lemma history_holds_insert_samples (t0 : TelescopeTcp) (l : list Sample) :
  history_holds (insert_samples l (fst (hangup t0))) l.
Proof.
  induction l as [|s l IH] using rev_ind.
  - apply history_holds_hangup.
  - unfold insert_samples in *. rewrite fold_left_app. cbn [fold_left].
    now apply history_holds_insert.
Qed.

Lemma time_delay_insert_samples (l : list Sample) (t : TelescopeTcp) :
  time_delay (insert_samples l t) = time_delay t.
Proof.
  revert t. induction l as [|s l IH]; intros t; [reflexivity|].
  unfold insert_samples in *. cbn [fold_left]. now rewrite IH.
Qed.

(** ** Queries that find no bracket *)

Lemma slot_current (t : TelescopeTcp) :
  slot t (position_pointer t) = slot t (back (position_pointer t) 0).
Proof. reflexivity. Qed.

Lemma nth_retained (l : list Sample) (j : nat) (d : Sample) :
  (j < 16)%nat -> (j < length l)%nat ->
  nth j (rev l) d = nth j (retained l) d /\ In (nth j (retained l) d) (retained l).
Proof.
  intros Hj Hl. unfold retained. split.
  - rewrite nth_firstn. destruct (Nat.ltb_spec j 16); [reflexivity | lia].
  - apply nth_In. rewrite length_firstn, length_rev. lia.
Qed.

Lemma slot_of_history (t : TelescopeTcp) (l : list Sample) (j : nat) (d : Sample) :
  history_holds t l -> (j < 16)%nat ->
  slot t (back (position_pointer t) j)
  = if Nat.ltb j (length l) then sample_position (nth j (rev l) d)
    else unset_position.
Proof.
  intros (_ & _ & H) Hj. rewrite (H j Hj).
  destruct (Nat.ltb_spec j (length l)) as [Hl|Hl].
  - rewrite (nth_indep _ unset_position (sample_position d))
      by (rewrite length_map, length_rev; exact Hl).
    apply map_nth.
  - apply nth_overflow. rewrite length_map, length_rev. exact Hl.
Qed.

(** The query time lies before every retained sample: with sixteen or more
    samples received the scan goes once round and answers the newest
    sample; with fewer it stops at the first unset slot and answers the
    oldest. *)
Lemma getObsJ2000Pos_before_all
    (t0 : TelescopeTcp) (l : list Sample) (d : Sample) (get_now : Z) :
  l <> [] ->
  (forall s, In s (retained l) ->
             smp_now s <> UNSET_MICROS
             /\ sint64 (get_now - time_delay t0) < smp_now s) ->
  getObsJ2000Pos (insert_samples l (fst (hangup t0))) get_now
  = if Nat.leb 16 (length l)
    then pos (sample_position (nth (length l - 1) l d))
    else pos (sample_position (nth 0 l d)).
Proof.
  intros Hne Hret.
  pose proof (history_holds_insert_samples t0 l) as Hh.
  set (t := insert_samples l (fst (hangup t0))) in *.
  assert (Hlen : (0 < length l)%nat) by (destruct l; [congruence | cbn; lia]).
  assert (Hptr : (position_pointer t < 16)%nat) by apply Hh.
  assert (Hslot : forall j, (j < 16)%nat -> (j < length l)%nat ->
            slot t (back (position_pointer t) j)
            = sample_position (nth j (retained l) d)
            /\ In (nth j (retained l) d) (retained l)).
  { intros j Hj Hl. rewrite (slot_of_history t l j d Hh Hj).
    destruct (Nat.ltb_spec j (length l)); [|lia].
    destruct (nth_retained l j d Hj Hl) as [E I]. now rewrite E. }
  assert (Hpass : forall j, (j < 16)%nat -> (S j < length l)%nat \/ j = 15%nat ->
            (16 <= length l)%nat \/ (S j < length l)%nat ->
            passes t (sint64 (get_now - time_delay t0))
              (back (position_pointer t) (S j)) (back (position_pointer t) j)).
  { intros j Hj Hc Hc'.
    assert (exists i, (i < 16)%nat /\ (i < length l)%nat
                      /\ back (position_pointer t) (S j)
                         = back (position_pointer t) i) as (i & Hi & Hil & E).
    { destruct (Nat.eq_dec j 15) as [->|Hn].
      - exists 0%nat. rewrite back_full_turn by exact Hptr.
        repeat split; auto; lia.
      - exists (S j). repeat split; auto; lia. }
    rewrite E. destruct (Hslot i Hi Hil) as [Es Is].
    destruct (Hret _ Is) as [Hu Hb].
    unfold passes. rewrite Es. cbn [client_micros sample_position].
    split; [exact Hu | lia]. }
  unfold getObsJ2000Pos. fold t.
  destruct (Hslot 0%nat ltac:(lia) Hlen) as [E0 I0].
  rewrite slot_current, E0. cbn [client_micros sample_position].
  destruct (Z.eqb_spec (smp_now (nth 0 (retained l) d)) UNSET_MICROS) as [Eu|_];
    [destruct (Hret _ I0); contradiction|].
  cbv zeta.
  replace (time_delay t) with (time_delay t0)
    by (unfold t; now rewrite time_delay_insert_samples).
  destruct (Nat.leb_spec 16 (length l)) as [Hfull|Hpart].
  - rewrite scan_back_full_turn; [|exact Hptr|].
    + rewrite slot_current, E0.
      destruct (nth_retained l 0 d ltac:(lia) Hlen) as [<- _].
      rewrite rev_nth by exact Hlen.
      reflexivity.
    + intros j Hj. apply Hpass; auto. lia.
  - rewrite (scan_back_stops_at_unset t _ (length l - 1));
      [|exact Hptr|lia| |].
    + destruct (Hslot (length l - 1)%nat ltac:(lia) ltac:(lia)) as [E _].
      rewrite E.
      destruct (nth_retained l (length l - 1) d ltac:(lia) ltac:(lia)) as [<- _].
      rewrite rev_nth by lia.
      now replace (length l - S (length l - 1))%nat with 0%nat by lia.
    + intros j Hj. apply Hpass; lia.
    + replace (S (length l - 1)) with (length l) by lia.
      rewrite (slot_of_history t l (length l) d Hh) by lia.
      destruct (Nat.ltb_spec (length l) (length l)); [lia | reflexivity].
Qed.

Lemma angle_of_int_quarter : angle_of_int 1073741824 = (PI / 2)%R.
Proof. unfold angle_of_int. lra. Qed.

Lemma angle_of_int_zero : angle_of_int 0 = 0%R.
Proof. unfold angle_of_int. lra. Qed.

Lemma twenty_samples_retained (s : Sample) :
  In s (retained twenty_samples) ->
  smp_now s <> UNSET_MICROS /\ 0 < smp_now s.
Proof.
  intros H. vm_compute in H.
  repeat (destruct H as [<-|H]; [split; [discriminate | reflexivity]|]).
  contradiction.
Qed.

(** C2, amended: once sixteen or more samples were received (twenty, say),
    every slot met by the scan holds a sample, and a query whose time lies
    before all retained samples goes once round the ring and answers the
    direction of the newest sample; in general a scan that passes all
    sixteen pairs answers the direction in the current slot; the oldest
    sample is answered while fewer than sixteen samples were received. *)
Theorem getObsJ2000Pos_full_turn_answers_newest :
  (forall (t0 : TelescopeTcp) (l : list Sample) (d : Sample) (get_now : Z),
      (16 <= length l)%nat ->
      (forall s, In s (retained l) ->
                 smp_now s <> UNSET_MICROS
                 /\ sint64 (get_now - time_delay t0) < smp_now s) ->
      getObsJ2000Pos (insert_samples l (fst (hangup t0))) get_now
      = pos (sample_position (nth (length l - 1) l d))
      /\ forall j, (j < 16)%nat ->
           client_micros
             (slot (insert_samples l (fst (hangup t0)))
                (back (position_pointer (insert_samples l (fst (hangup t0)))) j))
           <> UNSET_MICROS)
  /\ (forall (t : TelescopeTcp) (get_now : Z),
         (position_pointer t < 16)%nat ->
         client_micros (slot t (position_pointer t)) <> UNSET_MICROS ->
         (forall j, (j < 16)%nat ->
                    passes t (sint64 (get_now - time_delay t))
                      (back (position_pointer t) (S j))
                      (back (position_pointer t) j)) ->
         getObsJ2000Pos t get_now = pos (slot t (position_pointer t)))
  /\ (forall (t0 : TelescopeTcp) (l : list Sample) (d : Sample) (get_now : Z),
         (1 <= length l < 16)%nat ->
         (forall s, In s (retained l) ->
                    smp_now s <> UNSET_MICROS
                    /\ sint64 (get_now - time_delay t0) < smp_now s) ->
         getObsJ2000Pos (insert_samples l (fst (hangup t0))) get_now
         = pos (sample_position (nth 0 l d))).
Proof.
  split; [|split].
  - intros t0 l d get_now Hlen Hret.
    assert (Hne : l <> []) by (intros ->; cbn in Hlen; lia).
    split.
    + rewrite (getObsJ2000Pos_before_all t0 l d get_now Hne Hret).
      destruct (Nat.leb_spec 16 (length l)); [reflexivity | lia].
    + intros j Hj.
      rewrite (slot_of_history _ l j d (history_holds_insert_samples t0 l) Hj).
      destruct (Nat.ltb_spec j (length l)); [|lia].
      destruct (nth_retained l j d Hj) as [E I]; [lia|].
      rewrite E. apply Hret, I.
  - intros t get_now Hptr Hset H. unfold getObsJ2000Pos.
    destruct (Z.eqb_spec (client_micros (slot t (position_pointer t)))
                UNSET_MICROS); [contradiction|].
    now apply scan_back_full_turn.
  - intros t0 l d get_now Hlen Hret.
    assert (Hne : l <> []) by (intros ->; cbn in Hlen; lia).
    rewrite (getObsJ2000Pos_before_all t0 l d get_now Hne Hret).
    destruct (Nat.leb_spec 16 (length l)); [lia | reflexivity].
Qed.

Lemma getObsJ2000Pos_full_turn_answers_newest_witness :
  getObsJ2000Pos (insert_samples twenty_samples (fst (hangup example_client)))
    500000
  = pos (sample_position (nth 19 twenty_samples default_sample)).
Proof.
  refine (proj1 (proj1 getObsJ2000Pos_full_turn_answers_newest
                   example_client twenty_samples default_sample 500000 _ _)).
  - cbn. lia.
  - intros s H. apply twenty_samples_retained, H.
Defined.

(** C2 as stated fails: after twenty samples a query before all retained
    samples does not answer the direction of the oldest retained sample
    (the fifth one received). *)
Lemma getObsJ2000Pos_twenty_samples_not_oldest :
  (forall s, In s (retained twenty_samples) ->
             sint64 (500000 - time_delay example_client) < smp_now s)
  /\ getObsJ2000Pos (insert_samples twenty_samples (fst (hangup example_client)))
       500000
     <> pos (sample_position (nth 4 twenty_samples default_sample)).
Proof.
  split.
  - intros s H. apply twenty_samples_retained, H.
  - rewrite (getObsJ2000Pos_before_all example_client twenty_samples
               default_sample).
    + change (Nat.leb 16 (length twenty_samples)) with true. cbv iota.
      intros E. apply (f_equal vz) in E.
      change (sin (angle_of_int 1073741824) = sin (angle_of_int 0)) in E.
      rewrite angle_of_int_quarter, angle_of_int_zero, sin_PI2, sin_0 in E.
      lra.
    + discriminate.
    + intros s H. apply twenty_samples_retained, H.
Qed.

(** ** Geometry of the blend *)

Local Open Scope R_scope.

Lemma lengthSquared_scale (v : Vec3d) (s : R) :
  lengthSquared (vec_scale v s) = lengthSquared v * (s * s).
Proof. unfold lengthSquared, vec_scale. cbn. ring. Qed.

Lemma lengthSquared_normalized (v : Vec3d) :
  0 < lengthSquared v ->
  lengthSquared (vec_scale v (1 / sqrt (lengthSquared v))) = 1.
Proof.
  intros H. rewrite lengthSquared_scale.
  pose proof (sqrt_lt_R0 _ H) as Hs.
  pose proof (sqrt_sqrt (lengthSquared v) (Rlt_le _ _ H)) as Hq.
  set (s := sqrt (lengthSquared v)) in *.
  rewrite <- Hq at 1. field. lra.
Qed.

Lemma sphe_to_rect_unit (ra_int dec_int : Z) :
  lengthSquared (sphe_to_rect ra_int dec_int) = 1.
Proof.
  unfold lengthSquared, sphe_to_rect. cbn [vx vy vz].
  pose proof (sin2_cos2 (angle_of_int ra_int)) as Ha.
  pose proof (sin2_cos2 (angle_of_int dec_int)) as Hd.
  unfold Rsqr in Ha, Hd.
  set (ca := cos (angle_of_int ra_int)) in *.
  set (sa := sin (angle_of_int ra_int)) in *.
  set (cd := cos (angle_of_int dec_int)) in *.
  set (sd := sin (angle_of_int dec_int)) in *.
  replace (ca * cd * (ca * cd) + sa * cd * (sa * cd) + sd * sd)
    with ((sa * sa + ca * ca) * (cd * cd) + sd * sd) by ring.
  rewrite Ha. lra.
Qed.

Lemma dot_scale_l (v a : Vec3d) (s : R) :
  dot (vec_scale v s) a = s * dot v a.
Proof. unfold dot, vec_scale. cbn. ring. Qed.




Lemma vec_eq (a b : Vec3d) :
  vx a = vx b -> vy a = vy b -> vz a = vz b -> a = b.
Proof. destruct a, b. cbn. intros -> -> ->. reflexivity. Qed.




Local Close Scope R_scope.

(** ** Interpolation between two samples *)

Lemma blend_in_range (newer older : Position) (now : Z) :
  - 2 ^ 62 <= client_micros older ->
  client_micros older <= now <= client_micros newer ->
  client_micros newer < 2 ^ 62 ->
  blend newer older now
  = vec_add (vec_scale (pos newer) (IZR (now - client_micros older)))
            (vec_scale (pos older) (IZR (client_micros newer - now))).
Proof.
  intros H1 H2 H3. unfold blend.
  change (2 ^ 62) with 4611686018427387904 in H1, H3.
  rewrite !sint64_small
    by (change (2 ^ 63) with 9223372036854775808; lia).
  reflexivity.
Qed.

Lemma getObsJ2000Pos_bracket (t : TelescopeTcp) (get_now : Z) (k : nat) :
  (position_pointer t < 16)%nat -> (k <= 15)%nat ->
  client_micros (slot t (position_pointer t)) <> UNSET_MICROS ->
  let now := sint64 (get_now - time_delay t) in
  let newer := slot t (back (position_pointer t) k) in
  let older := slot t (back (position_pointer t) (S k)) in
  (forall j, (j < k)%nat ->
             passes t now (back (position_pointer t) (S j))
                    (back (position_pointer t) j)) ->
  client_micros older <> UNSET_MICROS ->
  client_micros older <= now <= client_micros newer ->
  client_micros older <> client_micros newer ->
  getObsJ2000Pos t get_now
  = if Rlt_dec 0 (lengthSquared (blend newer older now))
    then vec_scale (blend newer older now)
           (1 / sqrt (lengthSquared (blend newer older now)))
    else pos newer.
Proof.
  intros Hptr Hk Hset now newer older Hpass Ho Hbr Hne.
  unfold getObsJ2000Pos.
  destruct (Z.eqb_spec (client_micros (slot t (position_pointer t)))
              UNSET_MICROS); [contradiction|].
  now apply scan_back_bracket.
Qed.







(** ** The frame parser *)

Lemma parse_packets_fuel (clock : nat -> Z) (fuel1 : nat) :
  forall (fuel2 k : nat) (p : list Z) (t : TelescopeTcp),
    (length p <= fuel1)%nat -> (length p <= fuel2)%nat ->
    parse_packets fuel1 clock k p t = parse_packets fuel2 clock k p t.
Proof.
  induction fuel1 as [|fuel1 IH]; intros fuel2 k p t H1 H2.
  - destruct fuel2 as [|fuel2]; [reflexivity|]. cbn [parse_packets].
    destruct (Z.leb_spec 2 (Z.of_nat (length p))); [lia | reflexivity].
  - destruct fuel2 as [|fuel2]; cbn [parse_packets].
    + destruct (Z.leb_spec 2 (Z.of_nat (length p))); [lia | reflexivity].
    + destruct (Z.leb_spec 2 (Z.of_nat (length p))); [|reflexivity].
      destruct (Z.gtb_spec (packet_size p) BUFF_SIZE); cbn [orb]; [reflexivity|].
      destruct (Z.ltb_spec (packet_size p) 4); [reflexivity|].
      destruct (Z.gtb_spec (packet_size p) (Z.of_nat (length p))); [reflexivity|].
      assert (Hs : (length (skipn (Z.to_nat (packet_size p)) p) <= fuel1)%nat
                   /\ (length (skipn (Z.to_nat (packet_size p)) p) <= fuel2)%nat)
        by (rewrite length_skipn; lia).
      destruct Hs as [Hs1 Hs2].
      destruct (packet_type p =? 0); [destruct (packet_size p <? 24)|];
        try reflexivity; now apply IH.
Qed.

(** One round of the loop. *)
Lemma parse_from_unfold (clock : nat -> Z) (k : nat) (p : list Z)
    (t : TelescopeTcp) :
  parse_from clock k p t
  = if 2 <=? Z.of_nat (length p) then
      if (packet_size p >? BUFF_SIZE) || (packet_size p <? 4) then hangup t
      else if packet_size p >? Z.of_nat (length p) then (compact p t, [])
      else if packet_type p =? 0 then
        if packet_size p <? 24 then hangup t
        else parse_from clock (S k) (skipn (Z.to_nat (packet_size p)) p)
               (store_position (packet_server_micros p) (packet_ra_int p)
                  (packet_dec_int p) (packet_status p) (clock k) t)
      else parse_from clock k (skipn (Z.to_nat (packet_size p)) p) t
    else (compact p t, []).
Proof.
  unfold parse_from.
  rewrite (parse_packets_fuel clock (length p) (S (length p))) by lia.
  cbn [parse_packets].
  destruct (Z.leb_spec 2 (Z.of_nat (length p))); [|reflexivity].
  destruct (Z.gtb_spec (packet_size p) BUFF_SIZE); cbn [orb]; [reflexivity|].
  destruct (Z.ltb_spec (packet_size p) 4); [reflexivity|].
  destruct (Z.gtb_spec (packet_size p) (Z.of_nat (length p))); [reflexivity|].
  assert (Hs : (length (skipn (Z.to_nat (packet_size p)) p) <= length p)%nat)
    by (rewrite length_skipn; lia).
  destruct (packet_type p =? 0); [destruct (packet_size p <? 24)|];
    try reflexivity; now apply parse_packets_fuel.
Qed.

(** A position frame of 24 bytes (right ascension a quarter turn,
    declination 0) followed by a frame of the unknown type 7 and by two
    bytes of an incomplete frame: the position is stored in slot 1, the
    unknown frame is skipped and the two bytes stay in the buffer. *)
Example performReading_three_frames :
  let frame := [24; 0; 0; 0;  1; 0; 0; 0; 0; 0; 0; 0;  0; 0; 0; 64;
                0; 0; 0; 0;  5; 0; 0; 0] in
  let r := performReading (fun _ => 77) (RecvBytes (frame ++ [4; 0; 7; 0] ++ [30; 0]))
             connected_client in
  read_buff (fst r) = [30; 0]
  /\ position_pointer (fst r) = 1%nat
  /\ slot (fst r) 1 = mkPosition 1 77 (sphe_to_rect 1073741824 0) 5
  /\ connection_state (fst r) = Connected
  /\ snd r = [SysRecv 3 120]
  /\ sphe_to_rect 1073741824 0 = mkVec3d 0 1 0.
Proof.
  cbv zeta. splits; try reflexivity.
  unfold sphe_to_rect.
  rewrite angle_of_int_quarter, angle_of_int_zero, cos_0, cos_PI2, sin_PI2, sin_0.
  f_equal; lra.
Qed.

(** C3, amended: the parser runs on the buffered bytes followed by the
    bytes just read. With fewer than two bytes it stops and keeps them.
    Otherwise it first checks the 16-bit length: outside [4, 120] it hangs
    up (socket closed, buffers and history reset), even when fewer bytes
    than that length are buffered; then, with fewer bytes buffered than the
    length, it stops and keeps all bytes at the front of [read_buff];
    otherwise it looks at the 16-bit type: a frame of an unknown type is
    skipped by exactly its length, a frame of type 0 shorter than 24 bytes
    makes it hang up, a longer one is stored as a position and consumed;
    then the loop goes on with the rest. *)
Theorem parse_from_rules :
  forall (clock : nat -> Z) (k : nat) (p : list Z) (t : TelescopeTcp),
    let size := packet_size p in
    let buffered := Z.of_nat (length p) in
    let rest := skipn (Z.to_nat size) p in
    (forall (b : Z) (data : list Z),
        performReading clock (RecvBytes (b :: data)) t
        = with_call
            (SysRecv (fd t) (BUFF_SIZE - Z.of_nat (length (read_buff t))))
            (parse_from clock 0 (read_buff t ++ b :: data) t))
    /\ (buffered < 2 -> parse_from clock k p t = (set_read_buff p t, []))
    /\ (2 <= buffered -> size < 4 \/ BUFF_SIZE < size ->
        parse_from clock k p t = hangup t)
    /\ (2 <= buffered -> 4 <= size <= BUFF_SIZE -> buffered < size ->
        parse_from clock k p t = (set_read_buff p t, []))
    /\ (4 <= size <= BUFF_SIZE -> size <= buffered -> packet_type p <> 0 ->
        parse_from clock k p t = parse_from clock k rest t
        /\ Z.of_nat (length rest) = buffered - size)
    /\ (4 <= size < 24 -> size <= buffered -> packet_type p = 0 ->
        parse_from clock k p t = hangup t)
    /\ (24 <= size <= BUFF_SIZE -> size <= buffered -> packet_type p = 0 ->
        parse_from clock k p t
        = parse_from clock (S k) rest
            (store_position (packet_server_micros p) (packet_ra_int p)
               (packet_dec_int p) (packet_status p) (clock k) t)
        /\ Z.of_nat (length rest) = buffered - size)
    /\ (connection_state (fst (hangup t)) = Disconnected
        /\ snd (hangup t)
           = (if IS_INVALID_SOCKET (fd t) then [] else [SysClose (fd t)])
        /\ read_buff (fst (hangup t)) = []
        /\ positions (fst (hangup t)) = repeat unset_position NR_OF_POSITIONS).
Proof.
  intros clock k p t size buffered rest.
  assert (Hrest : size <= buffered -> 0 <= size ->
                  Z.of_nat (length rest) = buffered - size).
  { intros H1 H2. unfold rest, buffered. rewrite length_skipn. lia. }
  unfold BUFF_SIZE in *.
  splits.
  - intros b data. reflexivity.
  - intros H. rewrite parse_from_unfold.
    destruct (Z.leb_spec 2 (Z.of_nat (length p))); [unfold buffered in H; lia|].
    reflexivity.
  - intros H1 H2. rewrite parse_from_unfold. fold size buffered.
    destruct (Z.leb_spec 2 buffered); [|lia].
    unfold BUFF_SIZE.
    destruct (Z.gtb_spec size 120); cbn [orb]; [reflexivity|].
    destruct (Z.ltb_spec size 4); [reflexivity | lia].
  - intros H1 H2 H3. rewrite parse_from_unfold. fold size buffered.
    destruct (Z.leb_spec 2 buffered); [|lia].
    unfold BUFF_SIZE.
    destruct (Z.gtb_spec size 120); cbn [orb]; [lia|].
    destruct (Z.ltb_spec size 4); [lia|].
    destruct (Z.gtb_spec size buffered); [reflexivity | lia].
  - intros H1 H2 H3. split; [|apply Hrest; lia].
    rewrite parse_from_unfold. fold size buffered rest.
    destruct (Z.leb_spec 2 buffered); [|lia].
    unfold BUFF_SIZE.
    destruct (Z.gtb_spec size 120); cbn [orb]; [lia|].
    destruct (Z.ltb_spec size 4); [lia|].
    destruct (Z.gtb_spec size buffered); [lia|].
    destruct (Z.eqb_spec (packet_type p) 0); [contradiction | reflexivity].
  - intros H1 H2 H3. rewrite parse_from_unfold. fold size buffered.
    destruct (Z.leb_spec 2 buffered); [|lia].
    unfold BUFF_SIZE.
    destruct (Z.gtb_spec size 120); cbn [orb]; [lia|].
    destruct (Z.ltb_spec size 4); [lia|].
    destruct (Z.gtb_spec size buffered); [lia|].
    rewrite H3. cbn [Z.eqb].
    destruct (Z.ltb_spec size 24); [reflexivity | lia].
  - intros H1 H2 H3. split; [|apply Hrest; lia].
    rewrite parse_from_unfold. fold size buffered rest.
    destruct (Z.leb_spec 2 buffered); [|lia].
    unfold BUFF_SIZE.
    destruct (Z.gtb_spec size 120); cbn [orb]; [lia|].
    destruct (Z.ltb_spec size 4); [lia|].
    destruct (Z.gtb_spec size buffered); [lia|].
    rewrite H3. cbn [Z.eqb].
    destruct (Z.ltb_spec size 24); [lia | reflexivity].
  - apply hangup_state.
  - reflexivity.
  - apply hangup_state.
  - apply hangup_state.
Qed.

Lemma parse_from_rules_witness :
  parse_from (fun _ => 0) 0 [200; 0] connected_client = hangup connected_client.
Proof.
  refine (proj1 (proj2 (proj2
            (parse_from_rules (fun _ => 0) 0 [200; 0] connected_client))) _ _).
  - cbn. lia.
  - right. reflexivity.
Defined.

(** C3 as stated fails. With the two bytes [200; 0] buffered, fewer bytes
    are buffered than the announced length of 200, yet the parser does not
    wait and keep them: it closes the socket and empties the buffer. And a
    complete frame [4; 0; 0; 0], whose length 4 lies in [4, 120], is not
    consumed with the client staying connected: its type is 0 and it is
    shorter than 24 bytes, so the parser hangs up. *)
Lemma performReading_does_not_wait_or_consume :
  let r := performReading (fun _ => 0) (RecvBytes [200; 0]) connected_client in
  let r' := performReading (fun _ => 0) (RecvBytes [4; 0; 0; 0])
              connected_client in
  connection_state connected_client = Connected
  /\ read_buff connected_client = []
  /\ (2 <= Z.of_nat (length [200; 0]) < packet_size [200; 0]
      /\ read_buff (fst r) <> [200; 0]
      /\ connection_state (fst r) = Disconnected
      /\ snd r = [SysRecv 3 120; SysClose 3])
  /\ (4 <= packet_size [4; 0; 0; 0] <= BUFF_SIZE
      /\ packet_size [4; 0; 0; 0] <= Z.of_nat (length [4; 0; 0; 0])
      /\ connection_state (fst r') = Disconnected
      /\ snd r' = [SysRecv 3 120; SysClose 3]).
Proof.
  cbv zeta. splits; try reflexivity; try (cbn; lia); try (cbn; discriminate).
Qed.

(** ** The connection timer *)

Lemma connection_state_Connecting (t : TelescopeTcp) :
  connection_state t = Connecting ->
  IS_INVALID_SOCKET (fd t) = false /\ wait_for_connection_establishment t = true.
Proof.
  unfold connection_state.
  destruct (IS_INVALID_SOCKET (fd t)); [discriminate|].
  destruct (wait_for_connection_establishment t); [auto | discriminate].
Qed.

Lemma connection_state_Connected (t : TelescopeTcp) :
  connection_state t = Connected ->
  IS_INVALID_SOCKET (fd t) = false /\ wait_for_connection_establishment t = false.
Proof.
  unfold connection_state.
  destruct (IS_INVALID_SOCKET (fd t)); [discriminate|].
  destruct (wait_for_connection_establishment t); [discriminate | auto].
Qed.

Lemma connection_state_Disconnected (t : TelescopeTcp) :
  connection_state t = Disconnected -> IS_INVALID_SOCKET (fd t) = true.
Proof.
  unfold connection_state.
  destruct (IS_INVALID_SOCKET (fd t)); [reflexivity|].
  destruct (wait_for_connection_establishment t); discriminate.
Qed.

Lemma hasKnownPosition_hangup (t : TelescopeTcp) :
  hasKnownPosition (fst (hangup t)) = false.
Proof. unfold hasKnownPosition. rewrite slot_hangup. reflexivity. Qed.

(** C5, amended: a tick of [prepareSelectFds] in the Connecting state
    closes the socket and leaves the client Disconnected exactly when the
    clock is past [end_of_timeout] (the timer is then set to one second
    later); up to [end_of_timeout] the tick changes nothing and asks for
    write readiness. The timer of a connection attempt is set, when the
    attempt begins, to five seconds later. *)
Theorem prepareSelectFds_connect_timeout :
  (forall (a : ConnectAnswers) (s : SelectFds) (t : TelescopeTcp),
      connection_state t = Connecting ->
      end_of_timeout t < ans_now a ->
      connection_state (fst (fst (prepareSelectFds a s t))) = Disconnected
      /\ snd (prepareSelectFds a s t) = [SysClose (fd t)]
      /\ end_of_timeout (fst (fst (prepareSelectFds a s t)))
         = sint64 (ans_now a + 1000000)
      /\ hasKnownPosition (fst (fst (prepareSelectFds a s t))) = false)
  /\ (forall (a : ConnectAnswers) (s : SelectFds) (t : TelescopeTcp),
         connection_state t = Connecting ->
         ans_now a <= end_of_timeout t ->
         fst (fst (prepareSelectFds a s t)) = t
         /\ snd (prepareSelectFds a s t) = []
         /\ sel_write (snd (fst (prepareSelectFds a s t)))
            = FD_SET (fd t) (sel_write s))
  /\ (forall (a : ConnectAnswers) (s : SelectFds) (t : TelescopeTcp),
         connection_state t = Disconnected ->
         connection_state (fst (fst (prepareSelectFds a s t))) = Connecting ->
         end_of_timeout (fst (fst (prepareSelectFds a s t)))
         = sint64 (ans_now a + 5000000)).
Proof.
  splits.
  - intros a s t Hc Hn.
    destruct (connection_state_Connecting t Hc) as [Hfd Hw].
    unfold prepareSelectFds. rewrite Hfd, Hw.
    destruct (Z.gtb_spec (ans_now a) (end_of_timeout t)); [|lia].
    cbn [fst snd].
    set (t1 := set_end_of_timeout (sint64 (ans_now a + 1000000)) t).
    destruct (hangup_state t1) as (_ & Hd & _ & _ & He & _).
    splits.
    + exact Hd.
    + unfold hangup. cbn [snd]. change (fd t1) with (fd t). now rewrite Hfd.
    + exact He.
    + apply hasKnownPosition_hangup.
  - intros a s t Hc Hn.
    destruct (connection_state_Connecting t Hc) as [Hfd Hw].
    unfold prepareSelectFds. rewrite Hfd, Hw.
    destruct (Z.gtb_spec (ans_now a) (end_of_timeout t)); [lia|].
    splits; reflexivity.
  - intros a s t Hc.
    pose proof (connection_state_Disconnected t Hc) as Hfd.
    unfold prepareSelectFds. rewrite Hfd.
    destruct (ans_now a <? end_of_timeout t).
    { cbn [fst]. rewrite Hc. discriminate. }
    set (t1 := set_fd (ans_socket a)
                 (set_end_of_timeout (sint64 (ans_now a + 5000000)) t)).
    assert (Hh : connection_state (fst (hangup t1)) = Connecting -> False).
    { destruct (hangup_state t1) as (_ & Hd & _). rewrite Hd. discriminate. }
    destruct (IS_INVALID_SOCKET (fd t1)) eqn:E1.
    { cbn [fst]. unfold connection_state. rewrite E1. discriminate. }
    destruct (negb (ans_nonblocking a =? 0)).
    { cbn [fst]. intros H. destruct (Hh H). }
    destruct (negb (ans_connect a =? 0)).
    + destruct (negb (is_EINPROGRESS (ans_connect_errno a))
                && negb (is_EAGAIN (ans_connect_errno a))).
      * cbn [fst]. intros H. destruct (Hh H).
      * reflexivity.
    + cbn [fst]. unfold connection_state.
      change (fd (set_wait false t1)) with (fd t1). rewrite E1.
      cbn. discriminate.
Qed.

Lemma prepareSelectFds_connect_timeout_witness :
  connection_state (fst (fst (prepareSelectFds
      (mkConnectAnswers 5000001 0 0 0 EINTR) (mkSelectFds [] [] 0)
      connecting_client))) = Disconnected.
Proof.
  refine (proj1 (proj1 prepareSelectFds_connect_timeout
                   (mkConnectAnswers 5000001 0 0 0 EINTR) (mkSelectFds [] [] 0)
                   connecting_client _ _)).
  - reflexivity.
  - reflexivity.
Defined.

(** C5 as stated fails: two seconds after the attempt began (more than one
    second), the tick leaves the client in the Connecting state and closes
    nothing. *)
Lemma connecting_client_survives_two_seconds :
  connection_state connecting_client = Connecting
  /\ end_of_timeout connecting_client = 0 + 5000000
  /\ 0 + 1000000 < 2000000
  /\ connection_state (fst (fst (prepareSelectFds
         (mkConnectAnswers 2000000 0 0 0 EINTR) (mkSelectFds [] [] 0)
         connecting_client))) = Connecting
  /\ snd (prepareSelectFds
         (mkConnectAnswers 2000000 0 0 0 EINTR) (mkSelectFds [] [] 0)
         connecting_client) = [].
Proof.
  splits; reflexivity.
Qed.

(** ** The peer closes the connection *)

(** C6, amended: a read of zero bytes on an established connection closes
    the socket, leaves the client Disconnected with both buffers empty and
    every slot unset, so that no position is known; [end_of_timeout] is
    left as the last connection attempt set it, so the next tick starts a
    new attempt as soon as the clock has reached that value (five seconds
    after the last attempt began), and not before. *)
Theorem performReading_peer_closed :
  forall (clock : nat -> Z) (t : TelescopeTcp),
    connection_state t = Connected ->
    let t' := fst (performReading clock (RecvBytes []) t) in
    connection_state t' = Disconnected
    /\ snd (performReading clock (RecvBytes []) t)
       = [SysRecv (fd t) (BUFF_SIZE - Z.of_nat (length (read_buff t)));
          SysClose (fd t)]
    /\ read_buff t' = [] /\ write_buff t' = []
    /\ positions t' = repeat unset_position NR_OF_POSITIONS
    /\ hasKnownPosition t' = false
    /\ end_of_timeout t' = end_of_timeout t
    /\ (forall (a : ConnectAnswers) (s : SelectFds),
           ans_now a < end_of_timeout t ->
           prepareSelectFds a s t' = (t', s, []))
    /\ (forall (a : ConnectAnswers) (s : SelectFds),
           end_of_timeout t <= ans_now a ->
           exists tr, snd (prepareSelectFds a s t') = SysSocket :: tr
             /\ end_of_timeout (fst (fst (prepareSelectFds a s t')))
                = sint64 (ans_now a + 5000000)).
Proof.
  intros clock t Hc t'.
  destruct (connection_state_Connected t Hc) as [Hfd Hw].
  assert (E : t' = fst (hangup t)) by reflexivity.
  destruct (hangup_state t) as (Hi & Hd & Hr & Hwb & He & Hp & _).
  rewrite E. splits.
  - exact Hd.
  - unfold performReading, with_call, hangup. cbn [fst snd]. now rewrite Hfd.
  - exact Hr.
  - exact Hwb.
  - exact Hp.
  - apply hasKnownPosition_hangup.
  - exact He.
  - intros a s Hn. unfold prepareSelectFds. rewrite Hi, He.
    destruct (Z.ltb_spec (ans_now a) (end_of_timeout t)); [reflexivity | lia].
  - intros a s Hn. unfold prepareSelectFds. rewrite Hi, He.
    destruct (Z.ltb_spec (ans_now a) (end_of_timeout t)); [lia|].
    set (t1 := set_fd (ans_socket a)
                 (set_end_of_timeout (sint64 (ans_now a + 5000000))
                    (fst (hangup t)))).
    assert (Hh : end_of_timeout (fst (hangup t1))
                 = sint64 (ans_now a + 5000000))
      by (destruct (hangup_state t1) as (_ & _ & _ & _ & H' & _); exact H').
    destruct (IS_INVALID_SOCKET (fd t1)); [eexists; split; reflexivity|].
    destruct (negb (ans_nonblocking a =? 0));
      [eexists; split; [reflexivity | exact Hh]|].
    destruct (negb (ans_connect a =? 0)).
    + destruct (negb (is_EINPROGRESS (ans_connect_errno a))
                && negb (is_EAGAIN (ans_connect_errno a)));
        eexists; split; try reflexivity; exact Hh.
    + eexists; split; reflexivity.
Qed.

Lemma performReading_peer_closed_witness :
  connection_state (fst (performReading (fun _ => 0) (RecvBytes [])
                           connected_client)) = Disconnected.
Proof.
  refine (proj1 (performReading_peer_closed (fun _ => 0) connected_client _)).
  reflexivity.
Defined.

(** C6 as stated fails on the backoff: the connection was made at the time
    0, the peer closes it after a minute, and the tick one microsecond
    later starts a new attempt, far less than five seconds after the
    disconnect. *)
Lemma reconnect_follows_peer_close_at_once :
  let t' := fst (performReading (fun _ => 0) (RecvBytes []) connected_client) in
  connection_state connected_client = Connected
  /\ end_of_timeout connected_client = 0 + 5000000
  /\ connection_state t' = Disconnected
  /\ 60000001 < 60000000 + 5000000
  /\ snd (prepareSelectFds (mkConnectAnswers 60000001 4 0 (-1) EINPROGRESS)
            (mkSelectFds [] [] 0) t')
     = [SysSocket; SysSetNonblocking 4; SysConnect 4]
  /\ connection_state
       (fst (fst (prepareSelectFds
                    (mkConnectAnswers 60000001 4 0 (-1) EINPROGRESS)
                    (mkSelectFds [] [] 0) t')))
     = Connecting.
Proof.
  cbv zeta. splits; reflexivity.
Qed.

(** ** The two patterns of the factory *)

Lemma split_colon_some (s a b : string) :
  split_colon s = Some (a, b) ->
  s = (a ++ ":" ++ b)%string /\ no_colon a = true.
Proof.
  revert a b. induction s as [|c r IH]; intros a b H; cbn in H; [discriminate|].
  destruct (is_colon c) eqn:E.
  - injection H as <- <-. split; [|reflexivity]. cbn. f_equal.
    unfold is_colon, char_code in E. apply Z.eqb_eq in E.
    assert (H58 : nat_of_ascii c = 58%nat) by lia.
    rewrite <- (ascii_nat_embedding c), H58. reflexivity.
  - destruct (split_colon r) as [[a' b']|]; [|discriminate].
    injection H as <- <-. destruct (IH a' b' eq_refl) as [-> Hn].
    split; [reflexivity|]. cbn. now rewrite E, Hn.
Qed.

Lemma split_colon_app (a b : string) :
  no_colon a = true -> split_colon (a ++ ":" ++ b) = Some (a, b).
Proof.
  induction a as [|c r IH]; intros H; cbn in *; [reflexivity|].
  apply andb_true_iff in H as [Hc Hr].
  destruct (is_colon c); [discriminate|]. now rewrite IH.
Qed.

Lemma split_colon_none (s : string) :
  split_colon s = None <-> no_colon s = true.
Proof.
  induction s as [|c r IH]; cbn; [tauto|].
  destruct (is_colon c); cbn; [split; discriminate|].
  destruct (split_colon r) as [[a b]|]; split; intros H;
    try discriminate; try reflexivity.
  - apply IH in H. discriminate.
  - now apply IH.
Qed.

Lemma all_digits_no_colon (s : string) : all_digits s = true -> no_colon s = true.
Proof.
  induction s as [|c r IH]; cbn; [reflexivity|]. intros H.
  apply andb_true_iff in H as [Hc Hr]. rewrite (IH Hr), andb_true_r.
  unfold is_digit in Hc. unfold is_colon.
  apply andb_true_iff in Hc as [_ Hc]. apply Z.leb_le in Hc.
  destruct (Z.eqb_spec (char_code c) 58); [lia | reflexivity].
Qed.

Lemma digits1_no_colon (s : string) : digits1 s = true -> no_colon s = true.
Proof. destruct s; [discriminate|]. apply all_digits_no_colon. Qed.

Lemma match_recRx_spec (url name type params : string) :
  match_recRx url = Some (name, type, params)
  <-> descriptor_grammar url name type params.
Proof.
  unfold match_recRx, descriptor_grammar. split.
  - destruct (split_colon url) as [[n rest]|] eqn:E1; [|discriminate].
    apply split_colon_some in E1 as [-> Hn].
    destruct (split_colon rest) as [[ty pa]|] eqn:E2; intros H;
      injection H as <- <- <-.
    + apply split_colon_some in E2 as [-> Ht]. auto.
    + apply split_colon_none in E2. auto.
  - intros (Hn & Ht & [[-> ->]| ->]).
    + rewrite (split_colon_app name type Hn).
      apply split_colon_none in Ht. now rewrite Ht.
    + rewrite (split_colon_app name _ Hn), (split_colon_app type params Ht).
      reflexivity.
Qed.

Lemma match_paramRx_spec (params host port delay : string) :
  match_paramRx params = Some (host, port, delay)
  <-> params = (host ++ ":" ++ port ++ ":" ++ delay)%string
      /\ no_colon host = true /\ digits1 port = true /\ digits1 delay = true.
Proof.
  unfold match_paramRx. split.
  - destruct (split_colon params) as [[h rest]|] eqn:E1; [|discriminate].
    apply split_colon_some in E1 as [-> Hh].
    destruct (split_colon rest) as [[po de]|] eqn:E2; [|discriminate].
    apply split_colon_some in E2 as [-> _].
    destruct (digits1 po) eqn:Ep; [|discriminate].
    destruct (digits1 de) eqn:Ed; [|discriminate].
    intros H. injection H as <- <- <-. auto.
  - intros (-> & Hh & Hp & Hd).
    rewrite (split_colon_app host _ Hh),
      (split_colon_app port delay (digits1_no_colon _ Hp)), Hp, Hd.
    reflexivity.
Qed.

(** ** Port numbers *)

Lemma uint16_htons (x : Z) : uint16 (htons x) = htons x.
Proof.
  unfold htons, uint16.
  assert (Hv : 0 <= x mod 2 ^ 16 < 2 ^ 16) by (apply Z.mod_pos_bound; lia).
  set (v := x mod 2 ^ 16) in *.
  change 255 with (Z.ones 8).
  rewrite Z.land_ones, Z.shiftl_mul_pow2, Z.shiftr_div_pow2 by lia.
  rewrite <- Z.land_ones, Z.land_lor_distr_l, !Z.land_ones by lia.
  assert (H8 : 0 <= v mod 2 ^ 8 < 2 ^ 8) by (apply Z.mod_pos_bound; lia).
  change (2 ^ 8) with 256 in *. change (2 ^ 16) with 65536 in *.
  rewrite (Z.mod_small (v mod 256 * 256)) by lia.
  rewrite (Z.mod_small (v / 256)); [reflexivity|].
  split; [apply Z.div_pos; lia|].
  apply Z.div_lt_upper_bound; lia.
Qed.

Lemma htons_zero (x : Z) : htons x = 0 -> uint16 x = 0.
Proof.
  unfold htons, uint16. set (v := x mod 2 ^ 16).
  change 255 with (Z.ones 8).
  rewrite Z.land_ones, Z.shiftl_mul_pow2, Z.shiftr_div_pow2 by lia.
  intros H. apply Z.lor_eq_0_iff in H as [HA HB].
  change (2 ^ 8) with 256 in *.
  pose proof (Z.div_mod v 256 ltac:(lia)). lia.
Qed.

Lemma ntohs_htons_nonzero (port : Z) :
  1 <= port <= 65535 -> (ntohs (htons port) =? 0) = false.
Proof.
  intros H. apply Z.eqb_neq. intros E. unfold ntohs in E.
  apply htons_zero in E. rewrite uint16_htons in E.
  apply htons_zero in E. unfold uint16 in E.
  change (2 ^ 16) with 65536 in E. rewrite Z.mod_small in E by lia. lia.
Qed.

Lemma toInt_range (s : string) (hi : Z) :
  hi <= INT_MAX ->
  ((toInt s <=? 0) || (toInt s >? hi) = false
   <-> 1 <= decimal_value s <= hi).
Proof.
  intros Hhi. unfold toInt, INT_MAX in *.
  destruct (Z.leb_spec (decimal_value s) 2147483647).
  - destruct (Z.leb_spec (decimal_value s) 0);
      destruct (Z.gtb_spec (decimal_value s) hi); cbn; split;
      try discriminate; try reflexivity; lia.
  - cbn. split; [discriminate | lia].
Qed.

Lemma toInt_in_range (s : string) (hi : Z) :
  hi <= INT_MAX -> 1 <= decimal_value s <= hi -> toInt s = decimal_value s.
Proof.
  intros Hhi H. unfold toInt, INT_MAX in *.
  destruct (Z.leb_spec (decimal_value s) 2147483647); [reflexivity | lia].
Qed.

(** ** The factory *)

Section FactoryProperties.

Variable gethostbyname : string -> option hostent.

(** The constructor leaves an initialized object exactly when every one of
    its checks passes. *)
Lemma TelescopeTcp_new_initialized (params : string) :
  isInitialized (TelescopeTcp_new gethostbyname params) = true
  <-> exists host port delay hep,
        match_paramRx params = Some (host, port, delay)
        /\ 1 <= decimal_value port <= 65535
        /\ 1 <= decimal_value delay <= 10000000
        /\ gethostbyname (trimmed host) = Some hep
        /\ h_length hep = 4.
Proof.
  unfold TelescopeTcp_new.
  set (t1 := set_address (mkSockaddr 0 (htons 0) []) (fst (hangup TelescopeTcp_raw))).
  assert (H0 : isInitialized t1 = false) by reflexivity.
  assert (H1 : forall d, isInitialized (set_time_delay d t1) = false)
    by reflexivity.
  destruct (match_paramRx params) as [[[h po] de]|] eqn:E.
  2:{ rewrite H0. split; [discriminate|]. intros (? & ? & ? & ? & ? & _).
      discriminate. }
  cbv zeta. cbn [time_delay set_time_delay].
  pose proof (toInt_range po 65535 ltac:(unfold INT_MAX; lia)) as Rp.
  pose proof (toInt_range de 10000000 ltac:(unfold INT_MAX; lia)) as Rd.
  destruct ((toInt po <=? 0) || (toInt po >? 65535)) eqn:Ep.
  { rewrite H1. split; [discriminate|].
    intros (h' & po' & de' & hep & Hm & Hp & _).
    injection Hm as <- <- <-. apply Rp in Hp. discriminate. }
  destruct ((toInt de <=? 0) || (toInt de >? 10000000)) eqn:Ed.
  { rewrite H1. split; [discriminate|].
    intros (h' & po' & de' & hep & Hm & _ & Hd & _).
    injection Hm as <- <- <-. apply Rd in Hd. discriminate. }
  destruct (gethostbyname (trimmed h)) as [hep|] eqn:Eg.
  2:{ rewrite H1. split; [discriminate|].
      intros (h' & po' & de' & hep & Hm & _ & _ & Hg & _).
      injection Hm as <- <- <-. congruence. }
  destruct (Z.eqb_spec (h_length hep) 4) as [E4|E4]; cbn [negb].
  - split; [intros _ | intros _].
    + exists h, po, de, hep. repeat split; auto;
        try (apply Rp; reflexivity); try (apply Rd; reflexivity).
    + unfold isInitialized. cbn [address set_history set_end_of_timeout
        set_address sin_port].
      rewrite ntohs_htons_nonzero; [reflexivity|].
      rewrite (toInt_in_range po 65535); [|unfold INT_MAX; lia|];
        apply Rp; reflexivity.
  - rewrite H1. split; [discriminate|].
    intros (h' & po' & de' & hep' & Hm & _ & _ & Hg & Hl).
    injection Hm as <- <- <-. congruence.
Qed.

Lemma create_some (url : string) :
  (exists tel, create gethostbyname url = Some tel)
  <-> exists name type params,
        match_recRx url = Some (name, type, params)
        /\ (trimmed type = "Dummy"%string
            \/ (trimmed type = "TCP"%string
                /\ isInitialized
                     (TelescopeTcp_new gethostbyname (trimmed params)) = true)).
Proof.
  unfold create.
  destruct (match_recRx url) as [[[n ty] pa]|].
  2:{ split; [intros [? H]; discriminate | intros (? & ? & ? & H & _);
        discriminate]. }
  destruct (String.eqb_spec (trimmed ty) "Dummy") as [Ed|Ed].
  { cbn. split; [|eauto]. intros _. exists n, ty, pa. auto. }
  destruct (String.eqb_spec (trimmed ty) "TCP") as [Et|Et].
  - cbn [impl impl_isInitialized].
    destruct (isInitialized (TelescopeTcp_new gethostbyname (trimmed pa))) eqn:Ei.
    + split; [|eauto]. intros _. exists n, ty, pa. auto.
    + split; [intros [? H]; discriminate|].
      intros (n' & ty' & pa' & H & [Hd|[_ Hi]]); injection H as <- <- <-;
        congruence.
  - split; [intros [? H]; discriminate|].
    intros (n' & ty' & pa' & H & [Hd|[Ht _]]); injection H as <- <- <-;
      congruence.
Qed.

(** C4, amended: [create] returns a telescope exactly for the strings of
    the shape NAME:TYPE[:PARAMS] (no colon in NAME and TYPE) whose TYPE
    is, after trimming, Dummy or TCP and, for TCP, whose trimmed PARAMS
    read HOST:PORT:DELAY with decimal PORT in [1,65535], decimal DELAY in
    [1,10000000] and a HOST that the resolver maps to an address of four
    bytes. *)
Theorem create_accepts (url : string) :
  (exists tel, create gethostbyname url = Some tel)
  <-> accepts gethostbyname url.
Proof.
  rewrite create_some. unfold accepts, stream_params. split.
  - intros (n & ty & pa & Hm & H). exists n, ty, pa.
    split; [now apply match_recRx_spec|].
    destruct H as [H|[Ht Hi]]; [now left | right]. split; [exact Ht|].
    apply TelescopeTcp_new_initialized in Hi
      as (h & po & de & hep & Hp & Hpo & Hde & Hg & Hl).
    apply match_paramRx_spec in Hp as (Hp & Hh & Hdp & Hdd).
    exists h, po, de, hep. auto 10.
  - intros (n & ty & pa & Hm & H). exists n, ty, pa.
    split; [now apply match_recRx_spec|].
    destruct H as [H|[Ht (h & po & de & hep & Hs & Hg & Hl)]];
      [now left | right]. split; [exact Ht|].
    apply TelescopeTcp_new_initialized.
    destruct Hs as (Hp & Hh & Hdp & Hdd & Hpo & Hde).
    exists h, po, de, hep. repeat split; auto; try lia.
    apply match_paramRx_spec. auto.
Qed.

End FactoryProperties.

(** C4 as stated fails: this descriptor has the shape and the ranges that
    C4 asks for, but its host does not resolve and no telescope is
    made. *)
Lemma create_unresolved_host_gives_none :
  valid_as_specified "x:TCP:example.org:1:1"
  /\ create loopback_resolver "x:TCP:example.org:1:1" = None.
Proof.
  split; [|reflexivity].
  exists "x"%string, "TCP"%string, "example.org:1:1"%string. split.
  - unfold descriptor_grammar. auto.
  - right. split; [reflexivity|].
    exists "example.org"%string, "1"%string, "1"%string.
    unfold stream_params. splits; try reflexivity; vm_compute; discriminate.
Qed.

(** C8, amended: with the type written TCP, the descriptor yields a TCP
    telescope named Scope1 whose parameters are host 127.0.0.1 (stored as
    the address the resolver gives for it), port 10001 and a delay of
    500000 microseconds. *)
Theorem create_Scope1_TCP :
  forall (gethostbyname : string -> option hostent) (hep : hostent),
    gethostbyname "127.0.0.1"%string = Some hep ->
    h_length hep = 4 ->
    match_paramRx "127.0.0.1:10001:500000"
    = Some ("127.0.0.1"%string, "10001"%string, "500000"%string)
    /\ toInt "10001" = 10001
    /\ toInt "500000" = 500000
    /\ exists t : TelescopeTcp,
         create gethostbyname "Scope1:TCP:127.0.0.1:10001:500000"
         = Some (mkTelescope "Scope1" (ImplTcp t))
         /\ ntohs (sin_port (address t)) = 10001
         /\ sin_addr (address t) = firstn 4 (h_addr hep)
         /\ time_delay t = 500000
         /\ connection_state t = Disconnected
         /\ hasKnownPosition t = false.
Proof.
  intros g hep Hg Hl. splits; try reflexivity.
  exists (TelescopeTcp_new g "127.0.0.1:10001:500000").
  assert (E : TelescopeTcp_new g "127.0.0.1:10001:500000"
              = set_history (repeat unset_position NR_OF_POSITIONS) 0
                  (set_end_of_timeout (- 2 ^ 63)
                     (set_address
                        (mkSockaddr AF_INET (htons 10001) (firstn 4 (h_addr hep)))
                        (set_time_delay 500000
                           (set_address (mkSockaddr 0 (htons 0) [])
                              (fst (hangup TelescopeTcp_raw))))))).
  { unfold TelescopeTcp_new.
    change (match_paramRx "127.0.0.1:10001:500000")
      with (Some ("127.0.0.1"%string, "10001"%string, "500000"%string)).
    cbv iota beta zeta.
    change (trimmed "127.0.0.1") with "127.0.0.1"%string.
    change (toInt "10001") with 10001. change (toInt "500000") with 500000.
    rewrite Hg, Hl. reflexivity. }
  splits.
  - unfold create.
    change (match_recRx "Scope1:TCP:127.0.0.1:10001:500000")
      with (Some ("Scope1"%string, "TCP"%string,
                  "127.0.0.1:10001:500000"%string)).
    cbv iota beta zeta.
    change (trimmed "Scope1") with "Scope1"%string.
    change (trimmed "TCP") with "TCP"%string.
    change (trimmed "127.0.0.1:10001:500000") with "127.0.0.1:10001:500000"%string.
    change (String.eqb "TCP" "Dummy") with false.
    change (String.eqb "TCP" "TCP") with true.
    cbv iota. cbn [impl impl_isInitialized].
    rewrite E. reflexivity.
  - rewrite E. reflexivity.
  - rewrite E. reflexivity.
  - rewrite E. reflexivity.
  - rewrite E. reflexivity.
  - rewrite E. reflexivity.
Qed.

Lemma create_Scope1_TCP_witness :
  exists t : TelescopeTcp,
    create loopback_resolver "Scope1:TCP:127.0.0.1:10001:500000"
    = Some (mkTelescope "Scope1" (ImplTcp t))
    /\ ntohs (sin_port (address t)) = 10001
    /\ sin_addr (address t) = firstn 4 (h_addr (mkHostent 4 [127; 0; 0; 1]))
    /\ time_delay t = 500000
    /\ connection_state t = Disconnected
    /\ hasKnownPosition t = false.
Proof.
  refine (proj2 (proj2 (proj2
            (create_Scope1_TCP loopback_resolver (mkHostent 4 [127; 0; 0; 1]) _ _))));
    reflexivity.
Defined.

(** C8 as stated fails: Stream is not a type that the factory knows, and
    the descriptor yields no telescope. *)
Lemma create_Scope1_Stream_gives_none :
  create loopback_resolver "Scope1:Stream:127.0.0.1:10001:500000" = None.
Proof. reflexivity. Qed.

(** ** No sample received *)

(** C10: while the current slot carries the unset timestamp,
    [getObsJ2000Pos] answers the vector (0,0,0), whose squared length is 0
    and not 1, and [hasKnownPosition] answers false; this is the situation
    after every [hangup], hence also right after construction. *)
Theorem getObsJ2000Pos_unknown_is_zero_vector :
  (forall (t : TelescopeTcp) (get_now : Z),
      client_micros (slot t (position_pointer t)) = UNSET_MICROS ->
      getObsJ2000Pos t get_now = mkVec3d 0 0 0
      /\ hasKnownPosition t = false
      /\ lengthSquared (getObsJ2000Pos t get_now) = 0%R
      /\ lengthSquared (getObsJ2000Pos t get_now) <> 1%R)
  /\ (forall (t : TelescopeTcp) (get_now : Z),
         getObsJ2000Pos (fst (hangup t)) get_now = mkVec3d 0 0 0
         /\ hasKnownPosition (fst (hangup t)) = false).
Proof.
  assert (G : forall t get_now,
             client_micros (slot t (position_pointer t)) = UNSET_MICROS ->
             getObsJ2000Pos t get_now = mkVec3d 0 0 0
             /\ hasKnownPosition t = false).
  { intros t get_now H. unfold getObsJ2000Pos, hasKnownPosition.
    rewrite H, Z.eqb_refl. split; reflexivity. }
  split.
  - intros t get_now H. destruct (G t get_now H) as [E K].
    rewrite E. fold vec_zero. rewrite lengthSquared_zero.
    repeat split; auto; lra.
  - intros t get_now. apply G. rewrite slot_hangup. reflexivity.
Qed.

Lemma getObsJ2000Pos_unknown_is_zero_vector_witness :
  getObsJ2000Pos example_client 0 = mkVec3d 0 0 0.
Proof.
  refine (proj1 (proj1 getObsJ2000Pos_unknown_is_zero_vector example_client 0 _)).
  reflexivity.
Defined.

(** ** An idle tick *)

(** C9: when the telescope's descriptor is in neither set,
    [handleSelectFds] issues no system call and returns the state as it
    was, so the connection state and the history are the same. *)
Theorem handleSelectFds_nothing_ready :
  forall (a : IoAnswers) (read_fds write_fds : fd_set) (t : TelescopeTcp),
    FD_ISSET (fd t) read_fds = false ->
    FD_ISSET (fd t) write_fds = false ->
    handleSelectFds a read_fds write_fds t = (t, [])
    /\ connection_state (fst (handleSelectFds a read_fds write_fds t))
       = connection_state t
    /\ positions (fst (handleSelectFds a read_fds write_fds t)) = positions t
    /\ position_pointer (fst (handleSelectFds a read_fds write_fds t))
       = position_pointer t.
Proof.
  intros a r w t Hr Hw.
  assert (E : handleSelectFds a r w t = (t, [])).
  { unfold handleSelectFds.
    destruct (IS_INVALID_SOCKET (fd t)); cbn [negb]; [reflexivity|].
    destruct (wait_for_connection_establishment t).
    - rewrite Hw. reflexivity.
    - rewrite Hw. cbn [fst]. rewrite Hr, andb_false_r. reflexivity. }
  rewrite E. repeat split; reflexivity.
Qed.

Lemma handleSelectFds_nothing_ready_witness :
  handleSelectFds
    (mkIoAnswers (mkGetsockoptAnswer 0 0) (SendCount 0) (RecvBytes [])
       (fun _ => 0))
    [] [] connected_client
  = (connected_client, []).
Proof.
  refine (proj1 (handleSelectFds_nothing_ready _ [] [] connected_client _ _));
    reflexivity.
Defined.

(** ** Back-pressure of the goto queue *)

Lemma le_bytes_length (n : nat) (v : Z) : length (le_bytes n v) = n.
Proof.
  revert v. induction n as [|n IH]; intros v; cbn; [reflexivity|].
  now rewrite IH.
Qed.

Lemma goto_packet_length (v : Vec3d) (get_now : Z) :
  length (goto_packet v get_now) = 20%nat.
Proof.
  unfold goto_packet. rewrite !length_app, !le_bytes_length. reflexivity.
Qed.

(** C7: a goto that does not fit the free room of [write_buff] returns the
    state as it was (queued bytes kept, nothing of the new command
    written); and in every state the command is either not written at all
    or appended as one whole packet of 20 bytes. The function has no
    error result. *)
Theorem telescopeGoto_overflow_dropped :
  forall (j2000_pos : Vec3d) (get_now : Z) (t : TelescopeTcp),
    (BUFF_SIZE < Z.of_nat (length (write_buff t)) + 20
     -> telescopeGoto j2000_pos get_now t = t)
    /\ (telescopeGoto j2000_pos get_now t = t
        \/ (telescopeGoto j2000_pos get_now t
            = set_write_buff (write_buff t ++ goto_packet j2000_pos get_now) t
            /\ length (goto_packet j2000_pos get_now) = 20%nat
            /\ Z.of_nat (length (write_buff (telescopeGoto j2000_pos get_now t)))
               < BUFF_SIZE)).
Proof.
  intros v get_now t. unfold telescopeGoto, BUFF_SIZE. split.
  - intros H. destruct (isConnected t); [|reflexivity].
    destruct (Z.ltb_spec (Z.of_nat (length (write_buff t)) + 20) 120);
      [lia | reflexivity].
  - destruct (isConnected t); [|now left].
    destruct (Z.ltb_spec (Z.of_nat (length (write_buff t)) + 20) 120);
      [right | now left].
    split; [reflexivity|]. split; [apply goto_packet_length|].
    cbn [set_write_buff write_buff].
    rewrite length_app, goto_packet_length. lia.
Qed.

Lemma telescopeGoto_overflow_dropped_witness :
  telescopeGoto (mkVec3d 1 0 0) 0 (set_write_buff (repeat 0 110) connected_client)
  = set_write_buff (repeat 0 110) connected_client.
Proof.
  refine (proj1 (telescopeGoto_overflow_dropped (mkVec3d 1 0 0) 0
                   (set_write_buff (repeat 0 110) connected_client)) _).
  reflexivity.
Defined.

(** * Further properties of the client *)

(** ** What every state satisfies *)

Lemma client_inv_same (t t' : TelescopeTcp) :
  positions t' = positions t ->
  position_pointer t' = position_pointer t ->
  read_buff t' = read_buff t ->
  write_buff t' = write_buff t ->
  client_inv t -> client_inv t'.
Proof.
  intros Hp Hi Hr Hw (Hwf & Hu & Hb).
  unfold client_inv, history_wf, directions_unit, buffers_bounded, slot in *.
  rewrite Hp, Hi, Hr, Hw. auto.
Qed.

Lemma client_inv_hangup (t : TelescopeTcp) : client_inv (fst (hangup t)).
Proof.
  destruct (hangup_state t) as (_ & _ & Hr & Hw & _ & Hp & Hi).
  unfold client_inv, history_wf, directions_unit, buffers_bounded.
  rewrite Hp, Hi, Hr, Hw, repeat_length. splits; try reflexivity.
  - unfold NR_OF_POSITIONS. lia.
  - intros i H. rewrite slot_hangup in H. now destruct H.
Qed.

Lemma client_inv_store_position (srv ra dec st now : Z) (t : TelescopeTcp) :
  client_inv t -> client_inv (store_position srv ra dec st now t).
Proof.
  intros ((Hlen & Hptr) & Hu & Hb).
  unfold client_inv, history_wf, directions_unit, buffers_bounded.
  splits.
  - unfold store_position. cbn [positions set_history].
    now rewrite set_nth_length.
  - apply next_index_lt.
  - intros i.
    change (slot (store_position srv ra dec st now t) i)
      with (slot (insert_sample t (mkSample srv ra dec st now)) i).
    rewrite slot_insert_sample by exact Hlen.
    destruct (Nat.eqb i (next_index (position_pointer t))).
    + intros _. apply sphe_to_rect_unit.
    + apply Hu.
  - apply Hb.
  - apply Hb.
Qed.

Lemma client_inv_parse_packets (clock : nat -> Z) (fuel : nat) :
  forall (k : nat) (p : list Z) (t : TelescopeTcp),
    (length p <= fuel)%nat ->
    client_inv t -> client_inv (fst (parse_packets fuel clock k p t)).
Proof.
  assert (Hkeep : forall (p : list Z) (t : TelescopeTcp),
             client_inv t -> Z.of_nat (length p) < BUFF_SIZE ->
             client_inv (fst (compact p t, @nil SysCall))).
  { intros p t ((Hl & Hp) & Hu & Hr & Hw) Hlt.
    unfold client_inv, history_wf, directions_unit, buffers_bounded.
    cbn [fst]. splits; auto. }
  induction fuel as [|fuel IH]; intros k p t Hf Hinv; cbn [parse_packets].
  - apply Hkeep; [exact Hinv|]. unfold BUFF_SIZE. lia.
  - specialize (Hkeep p t Hinv).
    unfold BUFF_SIZE in *.
    destruct (Z.leb_spec 2 (Z.of_nat (length p))); [|apply Hkeep; lia].
    destruct (Z.gtb_spec (packet_size p) 120); cbn [orb];
      [apply client_inv_hangup|].
    destruct (Z.ltb_spec (packet_size p) 4); [apply client_inv_hangup|].
    destruct (Z.gtb_spec (packet_size p) (Z.of_nat (length p)));
      [apply Hkeep; lia|].
    assert (Hs : (length (skipn (Z.to_nat (packet_size p)) p) <= fuel)%nat)
      by (rewrite length_skipn; lia).
    destruct (packet_type p =? 0).
    + destruct (packet_size p <? 24); [apply client_inv_hangup|].
      apply IH; [exact Hs|]. now apply client_inv_store_position.
    + now apply IH.
Qed.

Lemma client_inv_performReading (clock : nat -> Z) (r : RecvResult)
    (t : TelescopeTcp) :
  client_inv t -> client_inv (fst (performReading clock r t)).
Proof.
  intros Hinv. unfold performReading, with_call. cbn [fst].
  destruct r as [e|[|b data]].
  - destruct (negb (is_EINTR e) && negb (is_EAGAIN e));
      [apply client_inv_hangup | exact Hinv].
  - apply client_inv_hangup.
  - unfold parse_buffer, parse_from. now apply client_inv_parse_packets.
Qed.

Lemma client_inv_set_write_buff (w : list Z) (t : TelescopeTcp) :
  client_inv t -> Z.of_nat (length w) < BUFF_SIZE ->
  client_inv (set_write_buff w t).
Proof.
  intros ((Hl & Hp) & Hu & Hr & Hw) Hlt.
  unfold client_inv, history_wf, directions_unit, buffers_bounded.
  splits; auto.
Qed.

Lemma client_inv_performWriting (r : SendResult) (t : TelescopeTcp) :
  client_inv t -> client_inv (fst (performWriting r t)).
Proof.
  intros Hinv. unfold performWriting, with_call. cbn [fst].
  destruct r as [e|[|rc]].
  - destruct (negb (is_EINTR e) && negb (is_EAGAIN e));
      [apply client_inv_hangup | exact Hinv].
  - exact Hinv.
  - pose proof (proj2 (proj2 (proj2 Hinv))) as Hw. unfold BUFF_SIZE in Hw.
    destruct (Nat.leb (length (write_buff t)) (S rc)); cbn [fst];
      apply client_inv_set_write_buff; auto; unfold BUFF_SIZE.
    + cbn [length]. lia.
    + rewrite length_skipn. lia.
Qed.

Lemma client_inv_telescopeGoto (v : Vec3d) (get_now : Z) (t : TelescopeTcp) :
  client_inv t -> client_inv (telescopeGoto v get_now t).
Proof.
  intros Hinv. unfold telescopeGoto.
  destruct (isConnected t); [|exact Hinv].
  destruct (Z.ltb_spec (Z.of_nat (length (write_buff t)) + 20) BUFF_SIZE);
    [|exact Hinv].
  apply client_inv_set_write_buff; [exact Hinv|].
  rewrite length_app, goto_packet_length. lia.
Qed.

Lemma client_inv_prepareSelectFds (a : ConnectAnswers) (s : SelectFds)
    (t : TelescopeTcp) :
  client_inv t -> client_inv (fst (fst (prepareSelectFds a s t))).
Proof.
  intros Hinv.
  assert (Hw : forall fd' eot w,
             client_inv (set_wait w (set_fd fd' (set_end_of_timeout eot t))))
    by (intros; apply (client_inv_same t); auto).
  assert (Hf : forall fd' eot,
             client_inv (set_fd fd' (set_end_of_timeout eot t)))
    by (intros; apply (client_inv_same t); auto).
  unfold prepareSelectFds.
  destruct (IS_INVALID_SOCKET (fd t)).
  - destruct (ans_now a <? end_of_timeout t); [exact Hinv|].
    set (t1 := set_fd (ans_socket a)
                 (set_end_of_timeout (sint64 (ans_now a + 5000000)) t)).
    destruct (IS_INVALID_SOCKET (fd t1)); [apply Hf|].
    destruct (negb (ans_nonblocking a =? 0)); [apply client_inv_hangup|].
    destruct (negb (ans_connect a =? 0)).
    + destruct (negb (is_EINPROGRESS (ans_connect_errno a))
                && negb (is_EAGAIN (ans_connect_errno a)));
        [apply client_inv_hangup | apply Hw].
    + apply Hw.
  - destruct (wait_for_connection_establishment t).
    + destruct (ans_now a >? end_of_timeout t);
        [apply client_inv_hangup | exact Hinv].
    + exact Hinv.
Qed.

Lemma client_inv_handleSelectFds (a : IoAnswers) (r w : fd_set)
    (t : TelescopeTcp) :
  client_inv t -> client_inv (fst (handleSelectFds a r w t)).
Proof.
  intros Hinv. unfold handleSelectFds.
  destruct (negb (IS_INVALID_SOCKET (fd t))); [|exact Hinv].
  destruct (wait_for_connection_establishment t).
  - destruct (FD_ISSET (fd t) w); [|exact Hinv].
    unfold with_call. cbn [fst].
    destruct (negb (gso_return (io_getsockopt a) =? 0));
      [apply client_inv_hangup|].
    destruct (negb (gso_err (io_getsockopt a) =? 0));
      [apply client_inv_hangup|].
    apply (client_inv_same t); auto.
  - assert (H1 : client_inv
                   (fst (if FD_ISSET (fd t) w
                         then performWriting (io_send a) t else (t, [])))).
    { destruct (FD_ISSET (fd t) w);
        [now apply client_inv_performWriting | exact Hinv]. }
    destruct (negb (IS_INVALID_SOCKET _) && FD_ISSET _ r); [|exact H1].
    cbn [fst]. now apply client_inv_performReading.
Qed.

Lemma client_inv_call (c : Call) (t : TelescopeTcp) :
  client_inv t -> client_inv (fst (call_result c t)).
Proof.
  intros Hinv. destruct c as [a s|a r w|v get_now]; cbn [call_result fst].
  - now apply client_inv_prepareSelectFds.
  - now apply client_inv_handleSelectFds.
  - now apply client_inv_telescopeGoto.
Qed.

Lemma client_inv_run (calls : list Call) :
  forall t, client_inv t -> client_inv (fst (run calls t)).
Proof.
  induction calls as [|c rest IH]; intros t Hinv; cbn [run fst]; [exact Hinv|].
  apply IH. now apply client_inv_call.
Qed.

Lemma client_inv_new (gethostbyname : string -> option hostent)
    (params : string) :
  client_inv (TelescopeTcp_new gethostbyname params).
Proof.
  unfold TelescopeTcp_new.
  destruct (match_paramRx params) as [[[h po] de]|];
    [|apply (client_inv_same (fst (hangup TelescopeTcp_raw)));
      try reflexivity; apply client_inv_hangup].
  cbv zeta.
  destruct ((toInt po <=? 0) || (toInt po >? 65535));
    [apply (client_inv_same (fst (hangup TelescopeTcp_raw)));
      try reflexivity; apply client_inv_hangup|].
  destruct (_ || _);
    [apply (client_inv_same (fst (hangup TelescopeTcp_raw)));
      try reflexivity; apply client_inv_hangup|].
  destruct (gethostbyname (trimmed h)) as [hep|];
    [|apply (client_inv_same (fst (hangup TelescopeTcp_raw)));
      try reflexivity; apply client_inv_hangup].
  destruct (negb (h_length hep =? 4));
    apply (client_inv_same (fst (hangup TelescopeTcp_raw)));
    try reflexivity; apply client_inv_hangup.
Qed.

(** X1: whatever calls are made on a telescope after its construction, the
    history keeps its sixteen slots with the cursor inside, and both byte
    buffers stay below their 120 bytes: the parser leaves fewer than 120
    unread bytes, so [recv] always has room for at least one byte. *)
Theorem run_keeps_bounds :
  forall (gethostbyname : string -> option hostent) (params : string)
         (calls : list Call),
    history_wf (fst (run calls (TelescopeTcp_new gethostbyname params)))
    /\ buffers_bounded (fst (run calls (TelescopeTcp_new gethostbyname params)))
    /\ 1 <= BUFF_SIZE
            - Z.of_nat (length (read_buff
                (fst (run calls (TelescopeTcp_new gethostbyname params))))).
Proof.
  intros g params calls.
  destruct (client_inv_run calls _ (client_inv_new g params))
    as (Hwf & _ & Hb).
  splits; auto. destruct Hb. lia.
Qed.

Lemma scan_back_unit (t : TelescopeTcp) (now : Z) (fuel : nat) :
  directions_unit t ->
  forall p, client_micros (slot t p) <> UNSET_MICROS ->
            lengthSquared (scan_back fuel t now p) = 1%R.
Proof.
  intros Hu. induction fuel as [|fuel IH]; intros p Hp; cbn [scan_back];
    [now apply Hu|].
  destruct (Z.eqb_spec (client_micros (slot t (prev_index p))) UNSET_MICROS)
    as [|Hpp]; [now apply Hu|].
  destruct (_ && _).
  - destruct (negb _); [|now apply Hu].
    destruct (Rlt_dec 0 _) as [Hf|_]; [|now apply Hu].
    now apply lengthSquared_normalized.
  - destruct (Nat.eqb _ _); [now apply Hu | now apply IH].
Qed.

(** X2: whatever calls are made on a telescope after its construction,
    [getObsJ2000Pos] answers a vector of length 1 when [hasKnownPosition]
    holds, and the vector (0,0,0) when it does not. *)
Theorem run_direction_unit_or_zero :
  forall (gethostbyname : string -> option hostent) (params : string)
         (calls : list Call) (get_now : Z),
    (hasKnownPosition (fst (run calls (TelescopeTcp_new gethostbyname params)))
     = true ->
     lengthSquared
       (getObsJ2000Pos (fst (run calls (TelescopeTcp_new gethostbyname params)))
          get_now) = 1%R)
    /\ (hasKnownPosition (fst (run calls (TelescopeTcp_new gethostbyname params)))
        = false ->
        getObsJ2000Pos (fst (run calls (TelescopeTcp_new gethostbyname params)))
          get_now = mkVec3d 0 0 0).
Proof.
  intros g params calls get_now.
  destruct (client_inv_run calls _ (client_inv_new g params)) as (_ & Hu & _).
  set (t := fst (run calls (TelescopeTcp_new g params))) in *.
  unfold hasKnownPosition, getObsJ2000Pos.
  destruct (Z.eqb_spec (client_micros (slot t (position_pointer t)))
              UNSET_MICROS) as [E|E]; cbn [negb]; split; intros H;
    try discriminate; try reflexivity.
  now apply scan_back_unit.
Qed.

(** ** The ring of samples *)

Lemma position_pointer_insert_samples (l : list Sample) (t0 : TelescopeTcp) :
  position_pointer (insert_samples l (fst (hangup t0)))
  = (length l mod 16)%nat.
Proof.
  induction l as [|s l IH] using rev_ind; [reflexivity|].
  unfold insert_samples in *. rewrite fold_left_app, length_app.
  cbn [fold_left length].
  change (position_pointer (insert_sample ?t s))
    with (next_index (position_pointer t)).
  rewrite IH. unfold next_index, NR_OF_POSITIONS.
  pose proof (Nat.mod_upper_bound (length l) 16 ltac:(lia)) as Hb.
  pose proof (Nat.div_mod_eq (length l) 16) as Hd.
  destruct (Nat.ltb_spec (S (length l mod 16)) 16).
  - apply (Nat.mod_unique _ _ (length l / 16)); lia.
  - apply (Nat.mod_unique _ _ (S (length l / 16))); lia.
Qed.

(** X3: after the samples [l] were stored into an empty history, the
    cursor stands at [length l mod 16], and the slot reached by [j < 16]
    steps back from it holds the sample received [j] before the last one,
    or is unset when fewer than [j + 1] samples were received: the ring
    holds the sixteen most recent samples in order of arrival. *)
Theorem history_keeps_latest_sixteen :
  forall (t0 : TelescopeTcp) (l : list Sample) (d : Sample),
    position_pointer (insert_samples l (fst (hangup t0)))
    = (length l mod 16)%nat
    /\ forall j, (j < 16)%nat ->
         slot (insert_samples l (fst (hangup t0)))
           (back (position_pointer (insert_samples l (fst (hangup t0)))) j)
         = if Nat.ltb j (length l)
           then sample_position (nth (length l - S j) l d)
           else unset_position.
Proof.
  intros t0 l d. split; [apply position_pointer_insert_samples|].
  intros j Hj.
  rewrite (slot_of_history _ l j d (history_holds_insert_samples t0 l) Hj).
  destruct (Nat.ltb_spec j (length l)); [|reflexivity].
  now rewrite rev_nth.
Qed.

(** ** Queries outside the span of the samples *)

Lemma getObsJ2000Pos_no_bracket
    (t0 : TelescopeTcp) (l : list Sample) (d : Sample) (get_now : Z) :
  l <> [] ->
  (forall s, In s (retained l) -> smp_now s <> UNSET_MICROS) ->
  (forall s s', In s (retained l) -> In s' (retained l) ->
                ~ (smp_now s <= sint64 (get_now - time_delay t0) <= smp_now s')) ->
  getObsJ2000Pos (insert_samples l (fst (hangup t0))) get_now
  = if Nat.leb 16 (length l)
    then pos (sample_position (nth (length l - 1) l d))
    else pos (sample_position (nth 0 l d)).
Proof.
  intros Hne Hset Hout.
  pose proof (history_holds_insert_samples t0 l) as Hh.
  set (t := insert_samples l (fst (hangup t0))) in *.
  assert (Hlen : (0 < length l)%nat) by (destruct l; [congruence | cbn; lia]).
  assert (Hptr : (position_pointer t < 16)%nat) by apply Hh.
  assert (Hslot : forall j, (j < 16)%nat -> (j < length l)%nat ->
            slot t (back (position_pointer t) j)
            = sample_position (nth j (retained l) d)
            /\ In (nth j (retained l) d) (retained l)).
  { intros j Hj Hl. rewrite (slot_of_history t l j d Hh Hj).
    destruct (Nat.ltb_spec j (length l)); [|lia].
    destruct (nth_retained l j d Hj Hl) as [E I]. now rewrite E. }
  assert (Hpass : forall j, (j < 16)%nat -> (j < length l)%nat ->
            (S j < length l)%nat \/ j = 15%nat ->
            passes t (sint64 (get_now - time_delay t0))
              (back (position_pointer t) (S j)) (back (position_pointer t) j)).
  { intros j Hj Hjl Hc.
    assert (exists i, (i < 16)%nat /\ (i < length l)%nat
                      /\ back (position_pointer t) (S j)
                         = back (position_pointer t) i) as (i & Hi & Hil & E).
    { destruct (Nat.eq_dec j 15) as [->|Hn].
      - exists 0%nat. rewrite back_full_turn by exact Hptr.
        repeat split; auto; lia.
      - exists (S j). repeat split; auto; lia. }
    rewrite E. destruct (Hslot i Hi Hil) as [Es Is].
    destruct (Hslot j Hj Hjl) as [En In_].
    unfold passes. rewrite Es, En. cbn [client_micros sample_position].
    split; [now apply Hset | now apply Hout]. }
  unfold getObsJ2000Pos. fold t.
  destruct (Hslot 0%nat ltac:(lia) Hlen) as [E0 I0].
  rewrite slot_current, E0. cbn [client_micros sample_position].
  destruct (Z.eqb_spec (smp_now (nth 0 (retained l) d)) UNSET_MICROS) as [Eu|_];
    [destruct (Hset _ I0 Eu)|].
  cbv zeta.
  replace (time_delay t) with (time_delay t0)
    by (unfold t; now rewrite time_delay_insert_samples).
  destruct (Nat.leb_spec 16 (length l)) as [Hfull|Hpart].
  - rewrite scan_back_full_turn; [|exact Hptr|].
    + rewrite slot_current, E0.
      destruct (nth_retained l 0 d ltac:(lia) Hlen) as [<- _].
      rewrite rev_nth by exact Hlen. reflexivity.
    + intros j Hj. apply Hpass; lia.
  - rewrite (scan_back_stops_at_unset t _ (length l - 1));
      [|exact Hptr|lia| |].
    + destruct (Hslot (length l - 1)%nat ltac:(lia) ltac:(lia)) as [E _].
      rewrite E.
      destruct (nth_retained l (length l - 1) d ltac:(lia) ltac:(lia)) as [<- _].
      rewrite rev_nth by lia.
      now replace (length l - S (length l - 1))%nat with 0%nat by lia.
    + intros j Hj. apply Hpass; lia.
    + replace (S (length l - 1)) with (length l) by lia.
      rewrite (slot_of_history t l (length l) d Hh) by lia.
      destruct (Nat.ltb_spec (length l) (length l)); [lia | reflexivity].
Qed.

(** X4: when the query time lies after the receipt times of all retained
    samples (no fresh sample for longer than the delay), the answer is the
    direction of the newest sample once sixteen or more samples were
    received, but the direction of the oldest, first received sample while
    fewer than sixteen were received: the scan then stops at the unset
    slot behind the oldest sample. *)
Theorem getObsJ2000Pos_after_all_samples :
  forall (t0 : TelescopeTcp) (l : list Sample) (d : Sample) (get_now : Z),
    l <> [] ->
    (forall s, In s (retained l) ->
               smp_now s <> UNSET_MICROS
               /\ smp_now s < sint64 (get_now - time_delay t0)) ->
    getObsJ2000Pos (insert_samples l (fst (hangup t0))) get_now
    = if Nat.leb 16 (length l)
      then pos (sample_position (nth (length l - 1) l d))
      else pos (sample_position (nth 0 l d)).
Proof.
  intros t0 l d get_now Hne H. apply getObsJ2000Pos_no_bracket; auto.
  - intros s Hs. now apply H.
  - intros s s' Hs Hs' Hb. destruct (H s' Hs'). lia.
Qed.

Lemma getObsJ2000Pos_after_all_samples_witness :
  getObsJ2000Pos
    (insert_samples [mkSample 0 0 0 0 10; mkSample 0 1073741824 0 0 20]
       (fst (hangup example_client)))
    1500000
  = sphe_to_rect 0 0.
Proof.
  refine (getObsJ2000Pos_after_all_samples example_client
            [mkSample 0 0 0 0 10; mkSample 0 1073741824 0 0 20]
            default_sample 1500000 _ _).
  - discriminate.
  - intros s [<-|[<-|[]]]; split; try discriminate; reflexivity.
Defined.

(** ** Queries at the receipt time of a sample *)

Lemma normalize_scaled_unit (X : Vec3d) (w : R) :
  lengthSquared X = 1%R -> (0 < w)%R ->
  vec_scale (vec_scale X w) (1 / sqrt (lengthSquared (vec_scale X w))) = X
  /\ (0 < lengthSquared (vec_scale X w))%R.
Proof.
  intros HX Hw. rewrite lengthSquared_scale, HX, Rmult_1_l.
  rewrite sqrt_square by lra. split; [|nra].
  destruct X as [x y z]. unfold vec_scale. cbn [vx vy vz].
  f_equal; field; lra.
Qed.

Lemma vec_add_scale_0_r (X Y : Vec3d) (w : R) :
  vec_add (vec_scale X w) (vec_scale Y 0) = vec_scale X w.
Proof.
  destruct X, Y. unfold vec_add, vec_scale. cbn [vx vy vz]. f_equal; ring.
Qed.

Lemma vec_add_scale_0_l (X Y : Vec3d) (w : R) :
  vec_add (vec_scale X 0) (vec_scale Y w) = vec_scale Y w.
Proof.
  destruct X, Y. unfold vec_add, vec_scale. cbn [vx vy vz]. f_equal; ring.
Qed.

(** X5: at the receipt time of one of the two newest samples, received at
    distinct, increasing times, the other sample has the weight 0 in the
    blend, and the answer is the direction of that one sample scaled by the
    weight and by 1/sqrt(f). With double idealised as real numbers, where
    every stored direction has length 1, this is the stored direction
    itself: a query for the receipt time of the newest sample answers the
    direction of the newest sample, and a query for the receipt time of the
    one before answers the direction of that one. The code agrees up to the
    rounding of the two scalings. *)
Theorem getObsJ2000Pos_at_sample_times :
  forall (t0 : TelescopeTcp) (l0 : list Sample) (sA sB : Sample) (get_now : Z),
    - 2 ^ 62 <= smp_now sA -> smp_now sA < smp_now sB -> smp_now sB < 2 ^ 62 ->
    (sint64 (get_now - time_delay t0) = smp_now sB ->
     getObsJ2000Pos (insert_samples (l0 ++ [sA; sB]) (fst (hangup t0))) get_now
     = sphe_to_rect (smp_ra sB) (smp_dec sB))
    /\ (sint64 (get_now - time_delay t0) = smp_now sA ->
        getObsJ2000Pos (insert_samples (l0 ++ [sA; sB]) (fst (hangup t0))) get_now
        = sphe_to_rect (smp_ra sA) (smp_dec sA)).
Proof.
  intros t0 l0 sA sB get_now HA HAB HB.
  pose proof (history_holds_insert_samples t0 (l0 ++ [sA; sB])) as Hh.
  set (t := insert_samples (l0 ++ [sA; sB]) (fst (hangup t0))) in *.
  destruct Hh as (_ & Hptr & Hslots).
  pose proof (Hslots 0%nat ltac:(lia)) as H0.
  pose proof (Hslots 1%nat ltac:(lia)) as H1.
  rewrite rev_app_distr in H0, H1. cbn [rev app map nth] in H0, H1.
  assert (Hd : time_delay t = time_delay t0)
    by (unfold t; now rewrite time_delay_insert_samples).
  change (2 ^ 62) with 4611686018427387904 in *.
  assert (HU : UNSET_MICROS = 9223372036854775807) by reflexivity.
  assert (E : forall Q, sint64 (get_now - time_delay t0) = Q ->
              smp_now sA <= Q <= smp_now sB ->
              getObsJ2000Pos t get_now
              = if Rlt_dec 0 (lengthSquared
                   (vec_add
                      (vec_scale (sphe_to_rect (smp_ra sB) (smp_dec sB))
                         (IZR (Q - smp_now sA)))
                      (vec_scale (sphe_to_rect (smp_ra sA) (smp_dec sA))
                         (IZR (smp_now sB - Q)))))
                then vec_scale
                       (vec_add
                          (vec_scale (sphe_to_rect (smp_ra sB) (smp_dec sB))
                             (IZR (Q - smp_now sA)))
                          (vec_scale (sphe_to_rect (smp_ra sA) (smp_dec sA))
                             (IZR (smp_now sB - Q))))
                       (1 / sqrt (lengthSquared
                          (vec_add
                             (vec_scale (sphe_to_rect (smp_ra sB) (smp_dec sB))
                                (IZR (Q - smp_now sA)))
                             (vec_scale (sphe_to_rect (smp_ra sA) (smp_dec sA))
                                (IZR (smp_now sB - Q))))))
                else sphe_to_rect (smp_ra sB) (smp_dec sB)).
  { intros Q HQ Hr.
    rewrite (getObsJ2000Pos_bracket t get_now 0 Hptr ltac:(lia)).
    all: change (back (position_pointer t) 0) with (position_pointer t) in *.
    all: rewrite ?H0, ?H1, ?Hd, ?HQ.
    all: cbn [client_micros sample_position pos]; try lia.
    rewrite blend_in_range; cbn [client_micros sample_position pos];
      try reflexivity; change (2 ^ 62) with 4611686018427387904; lia. }
  split; intros HQ.
  - rewrite (E _ HQ) by lia.
    rewrite Z.sub_diag, vec_add_scale_0_r.
    destruct (normalize_scaled_unit (sphe_to_rect (smp_ra sB) (smp_dec sB))
                (IZR (smp_now sB - smp_now sA)) (sphe_to_rect_unit _ _))
      as [En Hp]; [apply IZR_lt; lia|].
    destruct (Rlt_dec 0 _); [exact En | contradiction].
  - rewrite (E _ HQ) by lia.
    rewrite Z.sub_diag, vec_add_scale_0_l.
    destruct (normalize_scaled_unit (sphe_to_rect (smp_ra sA) (smp_dec sA))
                (IZR (smp_now sB - smp_now sA)) (sphe_to_rect_unit _ _))
      as [En Hp]; [apply IZR_lt; lia|].
    destruct (Rlt_dec 0 _); [exact En | contradiction].
Qed.

Lemma getObsJ2000Pos_at_sample_times_witness :
  getObsJ2000Pos
    (insert_samples ([] ++ [mkSample 0 0 0 0 10; mkSample 0 1073741824 0 0 20])
       (fst (hangup example_client)))
    500020
  = sphe_to_rect 1073741824 0.
Proof.
  refine (proj1 (getObsJ2000Pos_at_sample_times example_client []
                   (mkSample 0 0 0 0 10) (mkSample 0 1073741824 0 0 20)
                   500020 _ _ _) _); reflexivity || (cbn; lia).
Defined.

(** ** The goto frame read back *)

Lemma lor_shiftl_add (lo hi k : Z) :
  0 <= k -> 0 <= lo < 2 ^ k -> Z.lor lo (Z.shiftl hi k) = lo + hi * 2 ^ k.
Proof.
  intros Hk Hlo. rewrite <- Z.shiftl_mul_pow2 by exact Hk.
  rewrite <- Z.add_lor_land.
  replace (Z.land lo (Z.shiftl hi k)) with 0; [lia|].
  symmetry. apply Z.bits_inj'. intros n Hn.
  rewrite Z.land_spec, Z.bits_0.
  destruct (Z.lt_ge_cases n k) as [H|H].
  - rewrite (Z.shiftl_spec_low hi k n H). apply andb_false_r.
  - destruct (Z.eq_dec lo 0) as [->|Hne]; [now rewrite Z.bits_0|].
    rewrite (Z.bits_above_log2 lo n); [reflexivity | lia|].
    apply Z.lt_le_trans with k; [|exact H].
    apply Z.log2_lt_pow2; lia.
Qed.

Lemma uchar_range (v : Z) : 0 <= uchar v < 256.
Proof. unfold uchar. change (2 ^ 8) with 256. apply Z.mod_pos_bound. lia. Qed.

Lemma uchar_uchar (v : Z) : uchar (uchar v) = uchar v.
Proof.
  unfold uchar. change (2 ^ 8) with 256. apply Z.mod_mod. lia.
Qed.

Lemma byte_at_app (front l : list Z) (i : nat) :
  byte_at (front ++ l) (length front + i) = byte_at l i.
Proof. unfold byte_at. now rewrite app_nth2_plus. Qed.

Lemma le_uint32_app (front l : list Z) (i : nat) :
  le_uint32 (front ++ l) (length front + i) = le_uint32 l i.
Proof.
  unfold le_uint32. rewrite <- !Nat.add_assoc. now rewrite !byte_at_app.
Qed.

(** Four bytes written low byte first and read back give the value
    modulo 2^32. *)
Lemma le_uint32_le_bytes (v : Z) (rest : list Z) :
  le_uint32 (le_bytes 4 v ++ rest) 0 = v mod 2 ^ 32.
Proof.
  unfold le_uint32, byte_at.
  cbn [le_bytes app nth Nat.add]. rewrite !uchar_uchar.
  rewrite !Z.shiftr_div_pow2 by lia. change (2 ^ 8) with 256.
  pose proof (uchar_range v) as R0.
  pose proof (uchar_range (v / 256)) as R1.
  pose proof (uchar_range (v / 256 / 256)) as R2.
  pose proof (uchar_range (v / 256 / 256 / 256)) as R3.
  rewrite (lor_shiftl_add (uchar v)) by (change (2 ^ 8) with 256; lia).
  rewrite (lor_shiftl_add _ _ 16) by (change (2 ^ 8) with 256;
    change (2 ^ 16) with 65536; lia).
  rewrite (lor_shiftl_add _ _ 24) by (change (2 ^ 8) with 256;
    change (2 ^ 16) with 65536; change (2 ^ 24) with 16777216; lia).
  change (2 ^ 8) with 256. change (2 ^ 16) with 65536.
  change (2 ^ 24) with 16777216. change (2 ^ 32) with 4294967296.
  unfold uchar in *. change (2 ^ 8) with 256 in *.
  pose proof (Z.div_mod v 256 ltac:(lia)).
  pose proof (Z.div_mod (v / 256) 256 ltac:(lia)).
  pose proof (Z.div_mod (v / 256 / 256) 256 ltac:(lia)).
  pose proof (Z.div_mod (v / 256 / 256 / 256) 256 ltac:(lia)).
  apply (Z.mod_unique_pos _ _ (v / 256 / 256 / 256 / 256)); lia.
Qed.

Lemma sint64_of_mod (v : Z) :
  - 2 ^ 63 <= v < 2 ^ 63 -> sint64 (v mod 2 ^ 64) = v.
Proof.
  intros H. unfold sint64. rewrite Zplus_mod_idemp_l.
  change (2 ^ 63) with 9223372036854775808 in *.
  change (2 ^ 64) with 18446744073709551616.
  rewrite Z.mod_small; lia.
Qed.

Lemma sint32_of_mod (v : Z) : sint32 (v mod 2 ^ 32) = sint32 v.
Proof. unfold sint32. now rewrite Zplus_mod_idemp_l. Qed.

Lemma sint32_range (v : Z) : - 2 ^ 31 <= sint32 v < 2 ^ 31.
Proof.
  unfold sint32. change (2 ^ 31) with 2147483648.
  change (2 ^ 32) with 4294967296.
  pose proof (Z.mod_pos_bound (v + 2147483648) 4294967296 ltac:(lia)). lia.
Qed.

Lemma sint32_sint32 (v : Z) : sint32 (sint32 v) = sint32 v.
Proof.
  pose proof (sint32_range v) as H. unfold sint32 at 1.
  change (2 ^ 31) with 2147483648 in *. change (2 ^ 32) with 4294967296.
  rewrite Z.mod_small; lia.
Qed.

(** Eight bytes written low byte first and read back as the timestamp
    field of a frame. *)
Lemma server_micros_le_bytes (a b c d v : Z) (rest : list Z) :
  - 2 ^ 63 <= v < 2 ^ 63 ->
  packet_server_micros ([a; b; c; d] ++ le_bytes 8 v ++ rest) = v.
Proof.
  intros Hv. rewrite <- (sint64_of_mod v Hv) at 2.
  unfold packet_server_micros. f_equal. unfold byte_at.
  cbn [le_bytes app nth]. rewrite !uchar_uchar.
  rewrite !Z.shiftr_div_pow2 by lia. change (2 ^ 8) with 256.
  set (v1 := v / 256). set (v2 := v1 / 256). set (v3 := v2 / 256).
  set (v4 := v3 / 256). set (v5 := v4 / 256). set (v6 := v5 / 256).
  set (v7 := v6 / 256).
  pose proof (uchar_range v) as R0. pose proof (uchar_range v1) as R1.
  pose proof (uchar_range v2) as R2. pose proof (uchar_range v3) as R3.
  pose proof (uchar_range v4) as R4. pose proof (uchar_range v5) as R5.
  pose proof (uchar_range v6) as R6. pose proof (uchar_range v7) as R7.
  assert (P8 : 2 ^ 8 = 256) by reflexivity.
  assert (P16 : 2 ^ 16 = 65536) by reflexivity.
  assert (P24 : 2 ^ 24 = 16777216) by reflexivity.
  assert (P32 : 2 ^ 32 = 4294967296) by reflexivity.
  assert (P40 : 2 ^ 40 = 1099511627776) by reflexivity.
  assert (P48 : 2 ^ 48 = 281474976710656) by reflexivity.
  assert (P56 : 2 ^ 56 = 72057594037927936) by reflexivity.
  assert (P64 : 2 ^ 64 = 18446744073709551616) by reflexivity.
  rewrite (lor_shiftl_add (uchar v) _ 8) by lia.
  rewrite (lor_shiftl_add _ _ 16) by lia.
  rewrite (lor_shiftl_add _ _ 24) by lia.
  rewrite (lor_shiftl_add _ _ 32) by lia.
  rewrite (lor_shiftl_add _ _ 40) by lia.
  rewrite (lor_shiftl_add _ _ 48) by lia.
  rewrite (lor_shiftl_add _ _ 56) by lia.
  rewrite P8, P16, P24, P32, P40, P48, P56, P64.
  unfold uchar in *. rewrite P8 in *.
  pose proof (Z.div_mod v 256 ltac:(lia)).
  pose proof (Z.div_mod v1 256 ltac:(lia)).
  pose proof (Z.div_mod v2 256 ltac:(lia)).
  pose proof (Z.div_mod v3 256 ltac:(lia)).
  pose proof (Z.div_mod v4 256 ltac:(lia)).
  pose proof (Z.div_mod v5 256 ltac:(lia)).
  pose proof (Z.div_mod v6 256 ltac:(lia)).
  pose proof (Z.div_mod v7 256 ltac:(lia)).
  fold v1 in H. fold v2 in H0. fold v3 in H1. fold v4 in H2.
  fold v5 in H3. fold v6 in H4. fold v7 in H5.
  apply (Z.mod_unique_pos _ _ (v7 / 256)); lia.
Qed.

(** X6: the frame that [telescopeGoto] queues, read with the field readers
    of [performReading]: its length field is 20 and its type is 0, the
    timestamp field gives back the clock value (any value of a
    [long long int]), and the two angle fields give back the integers that
    were encoded. *)
Theorem goto_packet_read_back :
  forall (j2000_pos : Vec3d) (get_now : Z),
    length (goto_packet j2000_pos get_now) = 20%nat
    /\ packet_size (goto_packet j2000_pos get_now) = 20
    /\ packet_type (goto_packet j2000_pos get_now) = 0
    /\ (- 2 ^ 63 <= get_now < 2 ^ 63 ->
        packet_server_micros (goto_packet j2000_pos get_now) = get_now)
    /\ packet_ra_int (goto_packet j2000_pos get_now) = goto_ra_int j2000_pos
    /\ packet_dec_int (goto_packet j2000_pos get_now) = goto_dec_int j2000_pos
    /\ 0 <= goto_ra_int j2000_pos < 2 ^ 32
    /\ - 2 ^ 31 <= goto_dec_int j2000_pos < 2 ^ 31.
Proof.
  intros v get_now.
  assert (Hsplit :
            goto_packet v get_now
            = ([20; 0; 0; 0] ++ le_bytes 8 get_now)
                ++ le_bytes 4 (goto_ra_int v) ++ le_bytes 4 (goto_dec_int v))
    by reflexivity.
  assert (Hsplit2 :
            goto_packet v get_now
            = ([20; 0; 0; 0] ++ le_bytes 8 get_now ++ le_bytes 4 (goto_ra_int v))
                ++ le_bytes 4 (goto_dec_int v) ++ [])
    by (unfold goto_packet; cbn [app]; now rewrite app_nil_r).
  splits.
  - apply goto_packet_length.
  - reflexivity.
  - reflexivity.
  - intros H. unfold goto_packet. cbn [app].
    now apply (server_micros_le_bytes 20 0 0 0).
  - unfold packet_ra_int. rewrite Hsplit.
    change 12%nat
      with (Nat.add (length ([20; 0; 0; 0] ++ le_bytes 8 get_now)) 0).
    rewrite le_uint32_app, le_uint32_le_bytes.
    unfold goto_ra_int, uint32. now rewrite !Z.mod_mod by lia.
  - unfold packet_dec_int. rewrite Hsplit2.
    change 16%nat
      with (Nat.add (length ([20; 0; 0; 0] ++ le_bytes 8 get_now
                               ++ le_bytes 4 (goto_ra_int v))) 0).
    rewrite le_uint32_app, le_uint32_le_bytes, sint32_of_mod.
    unfold goto_dec_int. apply sint32_sint32.
  - unfold goto_ra_int, uint32. apply Z.mod_pos_bound. lia.
  - unfold goto_ra_int, uint32. apply Z.mod_pos_bound. lia.
  - apply sint32_range.
  - apply sint32_range.
Qed.

(** ** Sending and receiving *)

Lemma set_write_buff_same (t : TelescopeTcp) :
  set_write_buff (write_buff t) t = t.
Proof. now destruct t. Qed.

(** X7: when [send] reports that it took [rc] bytes, [performWriting]
    removes exactly the first [rc] bytes of the queue and keeps the unsent
    rest in order (nothing for [rc] = 0, everything when [rc] reaches the
    queue length); nothing else of the client changes and no socket is
    closed. *)
Theorem performWriting_keeps_unsent :
  forall (rc : nat) (t : TelescopeTcp),
    performWriting (SendCount rc) t
    = (set_write_buff (skipn rc (write_buff t)) t,
       [SysSend (fd t) (write_buff t)])
    /\ firstn rc (write_buff t)
         ++ write_buff (fst (performWriting (SendCount rc) t))
       = write_buff t.
Proof.
  intros rc t.
  assert (E : performWriting (SendCount rc) t
              = (set_write_buff (skipn rc (write_buff t)) t,
                 [SysSend (fd t) (write_buff t)])).
  { unfold performWriting, with_call. destruct rc as [|rc].
    - cbn [skipn fst snd]. now rewrite set_write_buff_same.
    - destruct (Nat.leb_spec (length (write_buff t)) (S rc)); cbn [fst snd];
        [|reflexivity].
      now rewrite skipn_all2. }
  split; [exact E|]. rewrite E. cbn [fst write_buff set_write_buff].
  apply firstn_skipn.
Qed.

(** X8: an interrupted or would-block [send] or [recv] leaves the client
    exactly as it was; every other error of [send] or [recv] makes it hang
    up: on an open socket the socket is closed, the client is Disconnected
    and no position is known any more. *)
Theorem send_recv_errors :
  forall (clock : nat -> Z) (e : Errno) (t : TelescopeTcp),
    (is_EINTR e || is_EAGAIN e = true ->
     fst (performWriting (SendError e) t) = t
     /\ snd (performWriting (SendError e) t) = [SysSend (fd t) (write_buff t)]
     /\ fst (performReading clock (RecvError e) t) = t
     /\ closed_fds (snd (performReading clock (RecvError e) t)) = [])
    /\ (is_EINTR e || is_EAGAIN e = false ->
        IS_INVALID_SOCKET (fd t) = false ->
        connection_state (fst (performWriting (SendError e) t)) = Disconnected
        /\ closed_fds (snd (performWriting (SendError e) t)) = [fd t]
        /\ hasKnownPosition (fst (performWriting (SendError e) t)) = false
        /\ connection_state (fst (performReading clock (RecvError e) t))
           = Disconnected
        /\ closed_fds (snd (performReading clock (RecvError e) t)) = [fd t]
        /\ hasKnownPosition (fst (performReading clock (RecvError e) t)) = false).
Proof.
  intros clock e t. unfold performWriting, performReading, with_call.
  cbn [fst snd].
  destruct (hangup_state t) as (_ & Hd & _).
  pose proof (hasKnownPosition_hangup t) as Hk.
  split; intros He.
  - assert (E : negb (is_EINTR e) && negb (is_EAGAIN e) = false)
      by (destruct (is_EINTR e), (is_EAGAIN e); auto; discriminate).
    rewrite E. splits; reflexivity.
  - intros Hfd.
    assert (E : negb (is_EINTR e) && negb (is_EAGAIN e) = true)
      by (destruct (is_EINTR e), (is_EAGAIN e); auto; discriminate).
    rewrite E. unfold hangup at 2 5. cbn [snd closed_fds]. rewrite Hfd.
    splits; auto.
Qed.

Lemma send_recv_errors_witness :
  connection_state (fst (performWriting (SendError (EOTHER 104)) connected_client))
  = Disconnected.
Proof.
  refine (proj1 (proj2 (send_recv_errors (fun _ => 0) (EOTHER 104)
                          connected_client) _ _)); reflexivity.
Defined.

Lemma parse_packets_read_buff (clock : nat -> Z) (q : list Z) (fuel : nat) :
  forall (k : nat) (p : list Z) (t : TelescopeTcp),
    parse_packets fuel clock k p (set_read_buff q t)
    = parse_packets fuel clock k p t.
Proof.
  induction fuel as [|fuel IH]; intros k p t; cbn [parse_packets];
    [reflexivity|].
  destruct (2 <=? Z.of_nat (length p)); [|reflexivity].
  destruct (_ || _); [reflexivity|].
  destruct (_ >? _); [reflexivity|].
  destruct (_ =? 0); [destruct (_ <? 24); [reflexivity|]|apply IH].
  exact (IH (S k) _
           (store_position (packet_server_micros p) (packet_ra_int p)
              (packet_dec_int p) (packet_status p) (clock k) t)).
Qed.

(** X9: a frame that arrives in two pieces is put together. When the bytes
    buffered after a first read do not yet hold a whole frame (fewer than
    two bytes, or fewer than the admissible length they announce), the
    state after a second read is the state that one read of all the bytes
    would have given. *)
Theorem performReading_joins_pieces :
  forall (clock1 clock2 : nat -> Z) (t : TelescopeTcp) (d1 d2 : list Z),
    d1 <> [] -> d2 <> [] ->
    Z.of_nat (length (read_buff t ++ d1)) < 2
    \/ (4 <= packet_size (read_buff t ++ d1) <= BUFF_SIZE
        /\ Z.of_nat (length (read_buff t ++ d1))
           < packet_size (read_buff t ++ d1)) ->
    read_buff (fst (performReading clock1 (RecvBytes d1) t)) = read_buff t ++ d1
    /\ fst (performReading clock2 (RecvBytes d2)
              (fst (performReading clock1 (RecvBytes d1) t)))
       = fst (performReading clock2 (RecvBytes (d1 ++ d2)) t).
Proof.
  intros clock1 clock2 t d1 d2 H1 H2 Hinc.
  assert (E1 : fst (performReading clock1 (RecvBytes d1) t)
               = set_read_buff (read_buff t ++ d1) t).
  { destruct d1 as [|b d1]; [congruence|].
    unfold performReading, with_call, parse_buffer. cbn [fst].
    rewrite parse_from_unfold. unfold BUFF_SIZE in *.
    destruct (Z.leb_spec 2 (Z.of_nat (length (read_buff t ++ b :: d1))));
      [|reflexivity].
    destruct Hinc as [Hinc|[[Ha Hb] Hc]]; [lia|].
    destruct (Z.gtb_spec (packet_size (read_buff t ++ b :: d1)) 120);
      cbn [orb]; [lia|].
    destruct (Z.ltb_spec (packet_size (read_buff t ++ b :: d1)) 4); [lia|].
    destruct (Z.gtb_spec (packet_size (read_buff t ++ b :: d1))
                (Z.of_nat (length (read_buff t ++ b :: d1)))); [reflexivity|lia]. }
  rewrite E1. split; [reflexivity|].
  destruct d2 as [|b2 d2]; [congruence|].
  destruct d1 as [|b1 d1]; [congruence|].
  unfold performReading, with_call, parse_buffer, parse_from. cbn [fst].
  cbn [read_buff set_read_buff]. rewrite parse_packets_read_buff.
  now rewrite <- !app_assoc.
Qed.

Lemma performReading_joins_pieces_witness :
  fst (performReading (fun _ => 77) (RecvBytes [0; 0; 7; 9])
         (fst (performReading (fun _ => 0) (RecvBytes [6; 0]) connected_client)))
  = fst (performReading (fun _ => 77) (RecvBytes ([6; 0] ++ [0; 0; 7; 9]))
           connected_client).
Proof.
  refine (proj2 (performReading_joins_pieces (fun _ => 0) (fun _ => 77)
                   connected_client [6; 0] [0; 0; 7; 9] _ _ _)).
  - discriminate.
  - discriminate.
  - right. vm_compute. splits; (discriminate || reflexivity).
Defined.

(** ** A read that delivers whole frames *)

Lemma byte_at_prefix (f r : list Z) (i : nat) :
  (i < length f)%nat -> byte_at (f ++ r) i = byte_at f i.
Proof. intros H. unfold byte_at. now rewrite app_nth1. Qed.

Lemma packet_header_prefix (f r : list Z) :
  (4 <= length f)%nat ->
  packet_size (f ++ r) = packet_size f /\ packet_type (f ++ r) = packet_type f.
Proof.
  intros H. unfold packet_size, packet_type.
  now rewrite !byte_at_prefix by lia.
Qed.

Lemma packet_fields_prefix (f r : list Z) :
  (24 <= length f)%nat ->
  packet_server_micros (f ++ r) = packet_server_micros f
  /\ packet_ra_int (f ++ r) = packet_ra_int f
  /\ packet_dec_int (f ++ r) = packet_dec_int f
  /\ packet_status (f ++ r) = packet_status f.
Proof.
  intros H.
  unfold packet_server_micros, packet_ra_int, packet_dec_int, packet_status,
    le_uint32.
  cbn [Nat.add].
  now rewrite !byte_at_prefix by lia.
Qed.

Lemma parse_from_incomplete (clock : nat -> Z) (k : nat) (p : list Z)
    (t : TelescopeTcp) :
  incomplete p -> parse_from clock k p t = (set_read_buff p t, []).
Proof.
  intros Hinc. rewrite parse_from_unfold. unfold incomplete, BUFF_SIZE in *.
  destruct (Z.leb_spec 2 (Z.of_nat (length p))); [|reflexivity].
  destruct Hinc as [Hinc|[[Ha Hb] Hc]]; [lia|].
  destruct (Z.gtb_spec (packet_size p) 120); cbn [orb]; [lia|].
  destruct (Z.ltb_spec (packet_size p) 4); [lia|].
  destruct (Z.gtb_spec (packet_size p) (Z.of_nat (length p)));
    [reflexivity | lia].
Qed.

Lemma parse_from_frames (clock : nat -> Z) (tail : list Z)
    (frames : list (list Z)) :
  Forall frame_ok frames -> incomplete tail ->
  forall (k : nat) (t : TelescopeTcp),
    parse_from clock k (concat frames ++ tail) t
    = (set_read_buff tail (insert_samples (frames_samples clock k frames) t),
       []).
Proof.
  intros Hok Htail. induction Hok as [|f rest (Hsz & Hlen & Hty) Hrest IH];
    intros k t.
  - cbn [concat app frames_samples]. now apply parse_from_incomplete.
  - cbn [concat frames_samples]. rewrite <- app_assoc.
    set (r := concat rest ++ tail) in *.
    unfold BUFF_SIZE in *.
    destruct (packet_header_prefix f r ltac:(lia)) as [Es Et].
    rewrite parse_from_unfold, Es, Et, Hsz, Nat2Z.id.
    rewrite length_app.
    destruct (Z.leb_spec 2 (Z.of_nat (length f + length r))); [|lia].
    unfold BUFF_SIZE.
    destruct (Z.gtb_spec (Z.of_nat (length f)) 120); cbn [orb]; [lia|].
    destruct (Z.ltb_spec (Z.of_nat (length f)) 4); [lia|].
    destruct (Z.gtb_spec (Z.of_nat (length f)) (Z.of_nat (length f + length r)));
      [lia|].
    rewrite skipn_app, skipn_all, Nat.sub_diag. cbn [app skipn].
    destruct (Z.eqb_spec (packet_type f) 0) as [E0|E0].
    + specialize (Hty E0).
      destruct (Z.ltb_spec (Z.of_nat (length f)) 24); [lia|].
      destruct (packet_fields_prefix f r ltac:(lia)) as (-> & -> & -> & ->).
      rewrite IH. reflexivity.
    + apply IH.
Qed.

(** X10: a read after which the buffer holds whole, admissible frames
    followed by the beginning of a further frame stores one sample for each
    frame of type 0, in order, each with the next reading of the clock,
    skips the frames of other types, keeps exactly the bytes of the
    unfinished frame in the buffer, and closes nothing. *)
Theorem performReading_whole_frames :
  forall (clock : nat -> Z) (t : TelescopeTcp) (data : list Z)
         (frames : list (list Z)) (tail : list Z),
    data <> [] ->
    read_buff t ++ data = concat frames ++ tail ->
    Forall frame_ok frames -> incomplete tail ->
    fst (performReading clock (RecvBytes data) t)
    = set_read_buff tail (insert_samples (frames_samples clock 0 frames) t)
    /\ closed_fds (snd (performReading clock (RecvBytes data) t)) = [].
Proof.
  intros clock t data frames tail Hne Heq Hok Htail.
  destruct data as [|b data]; [congruence|].
  unfold performReading, with_call, parse_buffer.
  rewrite Heq, parse_from_frames by assumption. split; reflexivity.
Qed.

Lemma performReading_whole_frames_witness :
  fst (performReading (fun _ => 77)
         (RecvBytes ([24; 0; 0; 0;  1; 0; 0; 0; 0; 0; 0; 0;  0; 0; 0; 64;
                      0; 0; 0; 0;  5; 0; 0; 0] ++ [4; 0; 7; 0] ++ [30; 0]))
         connected_client)
  = set_read_buff [30; 0]
      (insert_samples
         (frames_samples (fun _ => 77) 0
            [[24; 0; 0; 0;  1; 0; 0; 0; 0; 0; 0; 0;  0; 0; 0; 64;
              0; 0; 0; 0;  5; 0; 0; 0]; [4; 0; 7; 0]])
         connected_client).
Proof.
  refine (proj1 (performReading_whole_frames (fun _ => 77) connected_client _
                   [[24; 0; 0; 0;  1; 0; 0; 0; 0; 0; 0; 0;  0; 0; 0; 64;
                     0; 0; 0; 0;  5; 0; 0; 0]; [4; 0; 7; 0]] [30; 0] _ _ _ _)).
  - discriminate.
  - reflexivity.
  - repeat constructor; vm_compute; try discriminate; try reflexivity.
  - right. vm_compute. splits; (discriminate || reflexivity).
Defined.

(** ** Establishing the connection *)

(** X11: while the client waits for the connection, [handleSelectFds] acts
    only on write readiness of its descriptor (read readiness is ignored).
    Then it asks the socket for its pending error: when [getsockopt]
    succeeds and reports no error the client is Connected and nothing
    else changes; otherwise the socket is closed and the client is
    Disconnected. *)
Theorem handleSelectFds_while_connecting :
  forall (a : IoAnswers) (read_fds write_fds : fd_set) (t : TelescopeTcp),
    connection_state t = Connecting ->
    (FD_ISSET (fd t) write_fds = false ->
     handleSelectFds a read_fds write_fds t = (t, []))
    /\ (FD_ISSET (fd t) write_fds = true ->
        gso_return (io_getsockopt a) = 0 -> gso_err (io_getsockopt a) = 0 ->
        handleSelectFds a read_fds write_fds t
        = (set_wait false t, [SysGetsockopt (fd t)])
        /\ connection_state (fst (handleSelectFds a read_fds write_fds t))
           = Connected)
    /\ (FD_ISSET (fd t) write_fds = true ->
        gso_return (io_getsockopt a) <> 0 \/ gso_err (io_getsockopt a) <> 0 ->
        connection_state (fst (handleSelectFds a read_fds write_fds t))
        = Disconnected
        /\ snd (handleSelectFds a read_fds write_fds t)
           = [SysGetsockopt (fd t); SysClose (fd t)]).
Proof.
  intros a r w t Hc.
  destruct (connection_state_Connecting t Hc) as [Hfd Hw].
  unfold handleSelectFds. rewrite Hfd, Hw. cbn [negb].
  splits.
  - intros ->. reflexivity.
  - intros -> -> ->. split; [reflexivity|].
    unfold with_call, connection_state.
    cbn [fst Z.eqb negb fd set_wait wait_for_connection_establishment].
    now rewrite Hfd.
  - intros -> H. split.
    + unfold with_call. cbn [fst].
      destruct (hangup_state (set_wait false t)) as (_ & Hd & _).
      destruct (Z.eqb_spec (gso_return (io_getsockopt a)) 0); cbn [negb];
        [|exact Hd].
      destruct (Z.eqb_spec (gso_err (io_getsockopt a)) 0); cbn [negb];
        [|exact Hd].
      destruct H; contradiction.
    + unfold with_call, hangup. cbn [fst snd fd set_wait].
      rewrite Hfd.
      destruct (Z.eqb_spec (gso_return (io_getsockopt a)) 0); cbn [negb snd];
        [|reflexivity].
      destruct (Z.eqb_spec (gso_err (io_getsockopt a)) 0); cbn [negb snd];
        [|reflexivity].
      destruct H; contradiction.
Qed.

Lemma handleSelectFds_while_connecting_witness :
  connection_state
    (fst (handleSelectFds
            (mkIoAnswers (mkGetsockoptAnswer 0 0) (SendCount 0) (RecvBytes [])
               (fun _ => 0))
            [] [3] connecting_client))
  = Connected.
Proof.
  refine (proj2 (proj1 (proj2 (handleSelectFds_while_connecting
            (mkIoAnswers (mkGetsockoptAnswer 0 0) (SendCount 0) (RecvBytes [])
               (fun _ => 0))
            [] [3] connecting_client _)) _ _ _)); reflexivity.
Defined.

(** ** The pause between connection attempts *)

Lemma prepareSelectFds_attempt_timer (a : ConnectAnswers) (s : SelectFds)
    (t : TelescopeTcp) :
  IS_INVALID_SOCKET (fd t) = true ->
  end_of_timeout t <= ans_now a ->
  end_of_timeout (fst (fst (prepareSelectFds a s t)))
  = sint64 (ans_now a + 5000000)
  /\ exists tr, snd (prepareSelectFds a s t) = SysSocket :: tr.
Proof.
  intros Hfd Hn. unfold prepareSelectFds. rewrite Hfd.
  destruct (Z.ltb_spec (ans_now a) (end_of_timeout t)); [lia|].
  set (t1 := set_fd (ans_socket a)
               (set_end_of_timeout (sint64 (ans_now a + 5000000)) t)).
  assert (Hh : end_of_timeout (fst (hangup t1))
               = sint64 (ans_now a + 5000000))
    by (destruct (hangup_state t1) as (_ & _ & _ & _ & H' & _); exact H').
  destruct (IS_INVALID_SOCKET (fd t1)); [split; [|eexists]; reflexivity|].
  destruct (negb (ans_nonblocking a =? 0));
    [split; [exact Hh | eexists; reflexivity]|].
  destruct (negb (ans_connect a =? 0)).
  - destruct (negb (is_EINPROGRESS (ans_connect_errno a))
              && negb (is_EAGAIN (ans_connect_errno a)));
      (split; [try exact Hh; reflexivity | eexists; reflexivity]).
  - split; [|eexists]; reflexivity.
Qed.

(** X12: a client without a socket does nothing (no system call, no
    change) on a tick whose time is before [end_of_timeout]; and after a
    tick at the time [now] that tried to connect and left the client
    without a socket ([socket], the non-blocking mode or [connect] failed),
    every tick before [now] + 5 seconds does nothing. *)
Theorem prepareSelectFds_backoff :
  (forall (a : ConnectAnswers) (s : SelectFds) (t : TelescopeTcp),
      connection_state t = Disconnected ->
      ans_now a < end_of_timeout t ->
      prepareSelectFds a s t = (t, s, []))
  /\ (forall (a a' : ConnectAnswers) (s s' : SelectFds) (t : TelescopeTcp),
         connection_state t = Disconnected ->
         end_of_timeout t <= ans_now a ->
         - 2 ^ 63 <= ans_now a + 5000000 < 2 ^ 63 ->
         connection_state (fst (fst (prepareSelectFds a s t))) = Disconnected ->
         ans_now a' < ans_now a + 5000000 ->
         prepareSelectFds a' s' (fst (fst (prepareSelectFds a s t)))
         = (fst (fst (prepareSelectFds a s t)), s', [])).
Proof.
  assert (G : forall a s t, connection_state t = Disconnected ->
                ans_now a < end_of_timeout t ->
                prepareSelectFds a s t = (t, s, [])).
  { intros a s t Hc Hn. unfold prepareSelectFds.
    rewrite (connection_state_Disconnected t Hc).
    destruct (Z.ltb_spec (ans_now a) (end_of_timeout t)); [reflexivity | lia]. }
  split; [exact G|].
  intros a a' s s' t Hc Hn Hr Hd Hn'. apply G; [exact Hd|].
  destruct (prepareSelectFds_attempt_timer a s t
              (connection_state_Disconnected t Hc) Hn) as [-> _].
  rewrite sint64_small by exact Hr. exact Hn'.
Qed.

Lemma prepareSelectFds_backoff_witness :
  prepareSelectFds (mkConnectAnswers 4999999 3 0 0 EINTR) (mkSelectFds [] [] 0)
    (fst (fst (prepareSelectFds (mkConnectAnswers 0 (-1) 0 0 EINTR)
                 (mkSelectFds [] [] 0) example_client)))
  = (fst (fst (prepareSelectFds (mkConnectAnswers 0 (-1) 0 0 EINTR)
                 (mkSelectFds [] [] 0) example_client)),
     mkSelectFds [] [] 0, []).
Proof.
  refine (proj2 prepareSelectFds_backoff
            (mkConnectAnswers 0 (-1) 0 0 EINTR)
            (mkConnectAnswers 4999999 3 0 0 EINTR)
            (mkSelectFds [] [] 0) (mkSelectFds [] [] 0) example_client
            _ _ _ _ _); try reflexivity; vm_compute; splits;
    (discriminate || reflexivity).
Defined.

(** ** What the factory makes *)

Lemma htons_value (x : Z) :
  htons x = (uint16 x mod 256) * 256 + uint16 x / 256.
Proof.
  unfold htons.
  assert (Hv : 0 <= uint16 x < 65536)
    by (unfold uint16; change (2 ^ 16) with 65536; apply Z.mod_pos_bound; lia).
  set (v := uint16 x) in *.
  change 255 with (Z.ones 8).
  rewrite Z.land_ones, Z.shiftr_div_pow2, Z.lor_comm by lia.
  change (2 ^ 8) with 256.
  assert (Hq : 0 <= v / 256 < 256)
    by (split; [apply Z.div_pos; lia | apply Z.div_lt_upper_bound; lia]).
  rewrite lor_shiftl_add by (change (2 ^ 8) with 256; lia).
  change (2 ^ 8) with 256. lia.
Qed.

Lemma ntohs_htons (p : Z) : 0 <= p < 65536 -> ntohs (htons p) = p.
Proof.
  intros H. unfold ntohs. rewrite (htons_value p).
  assert (E : uint16 p = p)
    by (unfold uint16; change (2 ^ 16) with 65536; now apply Z.mod_small).
  rewrite E.
  pose proof (Z.div_mod p 256 ltac:(lia)) as Hp.
  pose proof (Z.mod_pos_bound p 256 ltac:(lia)) as Hr.
  set (l := p mod 256) in *. set (h := p / 256) in *.
  rewrite htons_value.
  assert (E' : uint16 (l * 256 + h) = l * 256 + h)
    by (unfold uint16; change (2 ^ 16) with 65536; apply Z.mod_small; lia).
  rewrite E'.
  pose proof (Z.div_mod (l * 256 + h) 256 ltac:(lia)) as Hy.
  pose proof (Z.mod_pos_bound (l * 256 + h) 256 ltac:(lia)) as Hyr.
  lia.
Qed.

Lemma TelescopeTcp_new_value (gethostbyname : string -> option hostent)
    (params host port delay : string) (hep : hostent) :
  match_paramRx params = Some (host, port, delay) ->
  1 <= decimal_value port <= 65535 ->
  1 <= decimal_value delay <= 10000000 ->
  gethostbyname (trimmed host) = Some hep ->
  h_length hep = 4 ->
  TelescopeTcp_new gethostbyname params
  = mkTelescopeTcp
      (mkSockaddr AF_INET (htons (decimal_value port)) (firstn 4 (h_addr hep)))
      INVALID_SOCKET false (- 2 ^ 63) [] [] (decimal_value delay)
      (repeat unset_position NR_OF_POSITIONS) 0.
Proof.
  intros Hm Hp Hd Hg Hl. unfold TelescopeTcp_new. rewrite Hm. cbv zeta.
  cbn [time_delay set_time_delay].
  rewrite (toInt_in_range port 65535), (toInt_in_range delay 10000000)
    by (auto; unfold INT_MAX; lia).
  destruct (Z.leb_spec (decimal_value port) 0); [lia|].
  destruct (Z.gtb_spec (decimal_value port) 65535); [lia|].
  destruct (Z.leb_spec (decimal_value delay) 0); [lia|].
  destruct (Z.gtb_spec (decimal_value delay) 10000000); [lia|].
  cbn [orb]. rewrite Hg, Hl. reflexivity.
Qed.

(** X13: a telescope that [create] returns carries the trimmed name; it is
    the simulator pointing to (1,0,0) for the type Dummy, and for the type
    TCP a client without a socket, with empty buffers and an empty history,
    the timer at its minimum, the delay and the port (in network byte
    order) as written in decimal in the descriptor, and the first four
    address bytes that the resolver gave for the host. *)
Theorem create_result :
  forall (gethostbyname : string -> option hostent) (url : string)
         (tel : Telescope),
    create gethostbyname url = Some tel ->
    exists name_text type_text params_text,
      descriptor_grammar url name_text type_text params_text
      /\ name tel = trimmed name_text
      /\ ((trimmed type_text = "Dummy"%string
           /\ impl tel = ImplDummy (mkTelescopeDummy (mkVec3d 1 0 0)
                                      (mkVec3d 1 0 0)))
          \/ (trimmed type_text = "TCP"%string
              /\ exists host port delay hep,
                   stream_params (trimmed params_text) host port delay
                   /\ gethostbyname (trimmed host) = Some hep
                   /\ h_length hep = 4
                   /\ ntohs (htons (decimal_value port)) = decimal_value port
                   /\ impl tel
                      = ImplTcp
                          (mkTelescopeTcp
                             (mkSockaddr AF_INET (htons (decimal_value port))
                                (firstn 4 (h_addr hep)))
                             INVALID_SOCKET false (- 2 ^ 63) [] []
                             (decimal_value delay)
                             (repeat unset_position NR_OF_POSITIONS) 0))).
Proof.
  intros g url tel H. unfold create in H.
  destruct (match_recRx url) as [[[n ty] pa]|] eqn:Em; [|discriminate].
  apply match_recRx_spec in Em. exists n, ty, pa. split; [exact Em|].
  destruct (String.eqb_spec (trimmed ty) "Dummy") as [Ed|Ed].
  { cbn in H. injection H as <-. split; [reflexivity|]. left. auto. }
  destruct (String.eqb_spec (trimmed ty) "TCP") as [Et|Et]; [|discriminate].
  cbn [impl impl_isInitialized] in H.
  destruct (isInitialized (TelescopeTcp_new g (trimmed pa))) eqn:Ei;
    [|discriminate].
  injection H as <-. split; [reflexivity|]. right. split; [exact Et|].
  apply TelescopeTcp_new_initialized in Ei
    as (h & po & de & hep & Hp & Hpo & Hde & Hg & Hl).
  exists h, po, de, hep.
  rewrite (TelescopeTcp_new_value g _ h po de hep Hp Hpo Hde Hg Hl).
  apply match_paramRx_spec in Hp as (Hp & Hh & Hdp & Hdd).
  unfold stream_params. splits; auto; try lia.
  apply ntohs_htons. lia.
Qed.

Lemma create_result_witness :
  exists name_text type_text params_text,
    descriptor_grammar " Scope 1 : TCP : 127.0.0.1:0080:0500 "
      name_text type_text params_text
    /\ name (mkTelescope "Scope 1"
               (ImplTcp
                  (TelescopeTcp_new loopback_resolver "127.0.0.1:0080:0500")))
       = trimmed name_text
    /\ ((trimmed type_text = "Dummy"%string
         /\ impl (mkTelescope "Scope 1"
                    (ImplTcp
                       (TelescopeTcp_new loopback_resolver "127.0.0.1:0080:0500")))
            = ImplDummy (mkTelescopeDummy (mkVec3d 1 0 0) (mkVec3d 1 0 0)))
        \/ (trimmed type_text = "TCP"%string
            /\ exists host port delay hep,
                 stream_params (trimmed params_text) host port delay
                 /\ loopback_resolver (trimmed host) = Some hep
                 /\ h_length hep = 4
                 /\ ntohs (htons (decimal_value port)) = decimal_value port
                 /\ impl (mkTelescope "Scope 1"
                            (ImplTcp
                               (TelescopeTcp_new loopback_resolver
                                  "127.0.0.1:0080:0500")))
                    = ImplTcp
                        (mkTelescopeTcp
                           (mkSockaddr AF_INET (htons (decimal_value port))
                              (firstn 4 (h_addr hep)))
                           INVALID_SOCKET false (- 2 ^ 63) [] []
                           (decimal_value delay)
                           (repeat unset_position NR_OF_POSITIONS) 0))).
Proof.
  refine (create_result loopback_resolver
            " Scope 1 : TCP : 127.0.0.1:0080:0500 " _ _).
  reflexivity.
Defined.

Lemma create_result_state (gethostbyname : string -> option hostent)
    (url name_ : string) (t : TelescopeTcp) :
  create gethostbyname url = Some (mkTelescope name_ (ImplTcp t)) ->
  IS_INVALID_SOCKET (fd t) = true
  /\ end_of_timeout t = - 2 ^ 63
  /\ hasKnownPosition t = false.
Proof.
  intros H. unfold create in H.
  destruct (match_recRx url) as [[[n ty] pa]|]; [|discriminate].
  destruct (String.eqb_spec (trimmed ty) "Dummy") as [Ed|Ed];
    [cbn in H; discriminate|].
  destruct (String.eqb_spec (trimmed ty) "TCP") as [Et|Et]; [|discriminate].
  cbn [impl impl_isInitialized] in H.
  destruct (isInitialized (TelescopeTcp_new gethostbyname (trimmed pa))) eqn:Ei;
    [|discriminate].
  injection H as _ <-.
  apply TelescopeTcp_new_initialized in Ei
    as (h & po & de & hep & Hp & Hpo & Hde & Hg & Hl).
  rewrite (TelescopeTcp_new_value gethostbyname _ h po de hep Hp Hpo Hde Hg Hl).
  splits; reflexivity.
Qed.

(** X14: the first tick of [prepareSelectFds] on a TCP telescope that
    [create] returned starts a connection attempt at once, whatever the
    time is: its first system call is [socket]. *)
Theorem create_then_first_tick_connects :
  forall (gethostbyname : string -> option hostent) (url name_ : string)
         (t : TelescopeTcp) (a : ConnectAnswers) (s : SelectFds),
    create gethostbyname url = Some (mkTelescope name_ (ImplTcp t)) ->
    - 2 ^ 63 <= ans_now a ->
    connection_state t = Disconnected
    /\ hasKnownPosition t = false
    /\ exists tr, snd (prepareSelectFds a s t) = SysSocket :: tr.
Proof.
  intros g url nm t a s H Hn.
  destruct (create_result_state g url nm t H) as (Hfd & He & Hk).
  splits.
  - unfold connection_state. now rewrite Hfd.
  - exact Hk.
  - apply (prepareSelectFds_attempt_timer a s t Hfd). rewrite He. exact Hn.
Qed.

Lemma create_then_first_tick_connects_witness :
  connection_state example_client = Disconnected
  /\ hasKnownPosition example_client = false
  /\ exists tr,
       snd (prepareSelectFds (mkConnectAnswers 0 3 0 0 EINTR)
              (mkSelectFds [] [] 0) example_client)
       = SysSocket :: tr.
Proof.
  refine (create_then_first_tick_connects loopback_resolver
            "Scope1:TCP:127.0.0.1:10001:500000" "Scope1" example_client
            (mkConnectAnswers 0 3 0 0 EINTR) (mkSelectFds [] [] 0) _ _).
  - reflexivity.
  - vm_compute. discriminate.
Defined.

(** ** Every socket is closed once *)

Lemma closed_fds_app (tr1 tr2 : list SysCall) :
  closed_fds (tr1 ++ tr2) = closed_fds tr1 ++ closed_fds tr2.
Proof.
  induction tr1 as [|c tr1 IH]; [reflexivity|].
  destruct c; cbn; now rewrite IH.
Qed.

Lemma sockets_hangup (t : TelescopeTcp) :
  closed_fds (snd (hangup t)) ++ held (fst (hangup t)) = held t.
Proof.
  unfold hangup, held. cbn [fst snd fd].
  destruct (IS_INVALID_SOCKET (fd t)) eqn:E; [now rewrite E | reflexivity].
Qed.

Lemma sockets_parse_packets (clock : nat -> Z) (fuel : nat) :
  forall (k : nat) (p : list Z) (t : TelescopeTcp),
    closed_fds (snd (parse_packets fuel clock k p t))
      ++ held (fst (parse_packets fuel clock k p t))
    = held t.
Proof.
  induction fuel as [|fuel IH]; intros k p t; cbn [parse_packets];
    [reflexivity|].
  destruct (2 <=? Z.of_nat (length p)); [|reflexivity].
  destruct (_ || _); [apply sockets_hangup|].
  destruct (_ >? _); [reflexivity|].
  destruct (_ =? 0); [destruct (_ <? 24); [apply sockets_hangup|]|apply IH].
  rewrite IH. reflexivity.
Qed.

Lemma sockets_performReading (clock : nat -> Z) (r : RecvResult)
    (t : TelescopeTcp) :
  closed_fds (snd (performReading clock r t))
    ++ held (fst (performReading clock r t))
  = held t.
Proof.
  unfold performReading, with_call. cbn [fst snd closed_fds].
  destruct r as [e|[|b data]].
  - destruct (_ && _); [apply sockets_hangup | reflexivity].
  - apply sockets_hangup.
  - apply sockets_parse_packets.
Qed.

Lemma sockets_performWriting (r : SendResult) (t : TelescopeTcp) :
  closed_fds (snd (performWriting r t)) ++ held (fst (performWriting r t))
  = held t.
Proof.
  unfold performWriting, with_call. cbn [fst snd closed_fds].
  destruct r as [e|[|rc]].
  - destruct (_ && _); [apply sockets_hangup | reflexivity].
  - reflexivity.
  - destruct (Nat.leb _ _); reflexivity.
Qed.

Lemma sockets_handleSelectFds (a : IoAnswers) (r w : fd_set)
    (t : TelescopeTcp) :
  closed_fds (snd (handleSelectFds a r w t))
    ++ held (fst (handleSelectFds a r w t))
  = held t.
Proof.
  unfold handleSelectFds.
  destruct (negb (IS_INVALID_SOCKET (fd t))); [|reflexivity].
  destruct (wait_for_connection_establishment t).
  - destruct (FD_ISSET (fd t) w); [|reflexivity].
    unfold with_call. cbn [fst snd closed_fds].
    destruct (negb (gso_return _ =? 0));
      [apply (sockets_hangup (set_wait false t))|].
    destruct (negb (gso_err _ =? 0));
      [apply (sockets_hangup (set_wait false t)) | reflexivity].
  - set (r1 := if FD_ISSET (fd t) w
               then performWriting (io_send a) t else (t, [])).
    assert (H1 : closed_fds (snd r1) ++ held (fst r1) = held t)
      by (unfold r1; destruct (FD_ISSET (fd t) w);
          [apply sockets_performWriting | reflexivity]).
    destruct (negb (IS_INVALID_SOCKET (fd (fst r1)))
              && FD_ISSET (fd (fst r1)) r); [|exact H1].
    cbn [fst snd]. rewrite closed_fds_app, <- app_assoc.
    now rewrite sockets_performReading.
Qed.

Lemma sockets_call (c : Call) (t : TelescopeTcp) :
  closed_fds (snd (call_result c t)) ++ held (fst (call_result c t))
  = held t ++ opened_by c t.
Proof.
  destruct c as [a s|a r w|v get_now]; cbn [call_result opened_by fst snd].
  - unfold prepareSelectFds, held at 2.
    destruct (IS_INVALID_SOCKET (fd t)) eqn:Hfd; cbn [andb app].
    + destruct (ans_now a <? end_of_timeout t); cbn [negb fst snd andb];
        [unfold held; now rewrite Hfd|].
      set (t1 := set_fd (ans_socket a)
                   (set_end_of_timeout (sint64 (ans_now a + 5000000)) t)).
      change (fd t1) with (ans_socket a).
      assert (Hh : held t1
                   = if IS_INVALID_SOCKET (ans_socket a) then []
                     else [ans_socket a]) by reflexivity.
      assert (Hw : forall b, held (set_wait b t1) = held t1) by reflexivity.
      pose proof (sockets_hangup t1) as Hs.
      destruct (IS_INVALID_SOCKET (ans_socket a)) eqn:Es;
        cbn [negb fst snd andb closed_fds app]; [exact Hh|].
      destruct (negb (ans_nonblocking a =? 0));
        cbn [fst snd closed_fds app]; [now rewrite Hs|].
      destruct (negb (ans_connect a =? 0)).
      * destruct (_ && _); cbn [fst snd closed_fds app];
          [now rewrite Hs | now rewrite Hw].
      * cbn [fst snd closed_fds app]. now rewrite Hw.
    + destruct (wait_for_connection_establishment t).
      * destruct (ans_now a >? end_of_timeout t); cbn [fst snd].
        -- rewrite sockets_hangup. unfold held.
           cbn [fd set_end_of_timeout]. now rewrite Hfd.
        -- unfold held. now rewrite Hfd.
      * cbn [fst snd]. unfold held. now rewrite Hfd.
  - rewrite app_nil_r. apply sockets_handleSelectFds.
  - rewrite app_nil_r. unfold telescopeGoto.
    destruct (isConnected t); [|reflexivity].
    destruct (_ <? _); reflexivity.
Qed.

Lemma sockets_run (calls : list Call) :
  forall t, closed_fds (snd (run calls t)) ++ held (fst (run calls t))
            = held t ++ opened_run calls t.
Proof.
  induction calls as [|c rest IH]; intros t; cbn [run opened_run fst snd].
  - now rewrite app_nil_r.
  - rewrite closed_fds_app, <- app_assoc, IH, !app_assoc.
    now rewrite sockets_call.
Qed.

(** X15: over the life of a TCP telescope (construction, any calls, and the
    destructor, which hangs up), the sockets that are closed are exactly
    the sockets that [socket()] returned, in the same order: none is left
    open and none is closed twice. *)
Theorem sockets_opened_are_closed :
  forall (gethostbyname : string -> option hostent) (params : string)
         (calls : list Call),
    closed_fds
      (snd (run calls (TelescopeTcp_new gethostbyname params))
         ++ snd (hangup (fst (run calls (TelescopeTcp_new gethostbyname params)))))
    = opened_run calls (TelescopeTcp_new gethostbyname params)
    /\ held (fst (hangup (fst (run calls
                                 (TelescopeTcp_new gethostbyname params)))))
       = [].
Proof.
  intros g params calls.
  set (t0 := TelescopeTcp_new g params).
  assert (H0 : held t0 = []).
  { unfold t0, TelescopeTcp_new.
    destruct (match_paramRx params) as [[[h po] de]|]; [|reflexivity].
    cbv zeta. destruct (_ || _); [reflexivity|].
    destruct (_ || _); [reflexivity|].
    destruct (g (trimmed h)) as [hep|]; [|reflexivity].
    destruct (negb _); reflexivity. }
  pose proof (sockets_run calls t0) as Hr. rewrite H0 in Hr. cbn [app] in Hr.
  pose proof (sockets_hangup (fst (run calls t0))) as Hh.
  assert (Hz : held (fst (hangup (fst (run calls t0)))) = []).
  { destruct (hangup_state (fst (run calls t0))) as (Hi & _).
    unfold held. now rewrite Hi. }
  split; [|exact Hz].
  rewrite closed_fds_app, <- Hr. rewrite Hz, app_nil_r in Hh. now rewrite Hh.
Qed.

(** ** The queue of goto commands *)

Lemma gotos_from (cmds : list (Vec3d * Z)) :
  forall (t : TelescopeTcp) (m : nat),
    isConnected t = true ->
    length (write_buff t) = (20 * m)%nat -> (m <= 5)%nat ->
    gotos cmds t
    = set_write_buff
        (write_buff t
           ++ concat (map (fun c => goto_packet (fst c) (snd c))
                        (firstn (5 - m) cmds)))
        t.
Proof.
  induction cmds as [|c rest IH]; intros t m Hc Hl Hm.
  - rewrite firstn_nil. cbn [gotos fold_left map concat].
    now rewrite app_nil_r, set_write_buff_same.
  - unfold gotos. cbn [fold_left]. fold (gotos rest (telescopeGoto (fst c) (snd c) t)).
    unfold telescopeGoto. rewrite Hc. unfold BUFF_SIZE.
    destruct (Z.ltb_spec (Z.of_nat (length (write_buff t)) + 20) 120).
    + assert (Hm' : (S m <= 5)%nat) by lia.
      rewrite (IH _ (S m)); try assumption.
      * cbn [write_buff set_write_buff].
        replace (5 - m)%nat with (S (5 - S m)) by lia.
        cbn [firstn map concat]. now rewrite <- app_assoc.
      * cbn [write_buff set_write_buff].
        rewrite length_app, goto_packet_length. lia.
    + assert (m = 5%nat) by lia. subst m.
      rewrite (IH _ 5%nat) by assumption. reflexivity.
Qed.

(** X16: a burst of goto commands on a connected client whose queue is
    empty queues the frames of the first five commands, in order, and
    drops all the others: the sixth frame would fill the buffer of 120
    bytes exactly and is refused. Nothing else of the client changes. *)
Theorem gotos_queue_first_five :
  forall (cmds : list (Vec3d * Z)) (t : TelescopeTcp),
    isConnected t = true -> write_buff t = [] ->
    gotos cmds t
    = set_write_buff
        (concat (map (fun c => goto_packet (fst c) (snd c)) (firstn 5 cmds)))
        t
    /\ length (write_buff (gotos cmds t)) = (20 * Nat.min 5 (length cmds))%nat.
Proof.
  intros cmds t Hc Hw.
  assert (E : gotos cmds t
              = set_write_buff
                  (concat (map (fun c => goto_packet (fst c) (snd c))
                             (firstn 5 cmds))) t).
  { rewrite (gotos_from cmds t 0 Hc); [now rewrite Hw|now rewrite Hw|lia]. }
  split; [exact E|]. rewrite E. cbn [write_buff set_write_buff].
  assert (G : forall l : list (Vec3d * Z),
            length (concat (map (fun c => goto_packet (fst c) (snd c)) l))
            = (20 * length l)%nat).
  { induction l as [|c l IHl]; [reflexivity|].
    cbn [map concat length]. rewrite length_app, goto_packet_length, IHl. lia. }
  now rewrite G, length_firstn.
Qed.

Lemma gotos_queue_first_five_witness :
  length (write_buff (gotos (repeat (mkVec3d 1 0 0, 7) 9) connected_client))
  = (20 * Nat.min 5 (length (repeat (mkVec3d 1 0 0, 7) 9)))%nat.
Proof.
  refine (proj2 (gotos_queue_first_five (repeat (mkVec3d 1 0 0, 7) 9)
                   connected_client _ _)); reflexivity.
Defined.

(** ** Interest in readiness *)

(** X17: what [prepareSelectFds] asks the select loop for. A client that
    has no socket when the call begins leaves the descriptor sets and the
    maximum untouched, even when the call opens a connection. A connected
    client leaves its state untouched, issues no system call, always asks
    for read readiness, and asks for write readiness exactly when bytes are
    queued. *)
Theorem prepareSelectFds_interest :
  forall (a : ConnectAnswers) (s : SelectFds) (t : TelescopeTcp),
    (connection_state t = Disconnected ->
     snd (fst (prepareSelectFds a s t)) = s)
    /\ (connection_state t = Connected ->
        prepareSelectFds a s t
        = (t,
           mkSelectFds (FD_SET (fd t) (sel_read s))
             (match write_buff t with
              | [] => sel_write s
              | _ :: _ => FD_SET (fd t) (sel_write s)
              end)
             (Z.max (sel_max s) (fd t)),
           [])).
Proof.
  intros a s t. split; intros Hc.
  - unfold prepareSelectFds. rewrite (connection_state_Disconnected t Hc).
    destruct (_ <? _); [reflexivity|].
    destruct (IS_INVALID_SOCKET _); [reflexivity|].
    destruct (negb _); [reflexivity|].
    destruct (negb _); [destruct (_ && _)|]; reflexivity.
  - destruct (connection_state_Connected t Hc) as [Hfd Hw].
    unfold prepareSelectFds. rewrite Hfd, Hw.
    assert (Em : (if sel_max s <? fd t then fd t else sel_max s)
                 = Z.max (sel_max s) (fd t))
      by (destruct (Z.ltb_spec (sel_max s) (fd t)); lia).
    rewrite Em. destruct (write_buff t); reflexivity.
Qed.

(** ** The simulator *)

Lemma dot_unit_bounds (a b : Vec3d) :
  lengthSquared a = 1%R -> lengthSquared b = 1%R ->
  (-1 <= dot a b <= 1)%R.
Proof.
  destruct a as [a1 a2 a3], b as [b1 b2 b3].
  unfold lengthSquared, dot. cbn. intros Ha Hb.
  pose proof (Rle_0_sqr (a1 - b1)) as P1. pose proof (Rle_0_sqr (a2 - b2)) as P2.
  pose proof (Rle_0_sqr (a3 - b3)) as P3. pose proof (Rle_0_sqr (a1 + b1)) as Q1.
  pose proof (Rle_0_sqr (a2 + b2)) as Q2. pose proof (Rle_0_sqr (a3 + b3)) as Q3.
  unfold Rsqr in *. split; nra.
Qed.

Lemma lengthSquared_tick (x t : Vec3d) :
  lengthSquared (vec_add (vec_scale x 31) t)
  = (961 * lengthSquared x + 62 * dot x t + lengthSquared t)%R.
Proof. unfold lengthSquared, dot, vec_add, vec_scale. cbn. ring. Qed.

Lemma dot_tick (x t : Vec3d) :
  dot (vec_add (vec_scale x 31) t) t = (31 * dot x t + lengthSquared t)%R.
Proof. unfold lengthSquared, dot, vec_add, vec_scale. cbn. ring. Qed.

(** X18: one tick of the simulator, for a unit pointing direction and a
    unit target: the target is kept, the new direction has unit length and
    is never further from the target than the old one, and strictly nearer
    unless the old direction is the target or its opposite. A simulator
    that has reached the target stays there, and one that points exactly
    opposite to the target never moves. *)
Theorem dummy_prepareSelectFds_approaches_target :
  forall d : TelescopeDummy,
    lengthSquared (XYZ d) = 1%R -> lengthSquared (desired_pos d) = 1%R ->
    desired_pos (dummy_prepareSelectFds d) = desired_pos d
    /\ lengthSquared (XYZ (dummy_prepareSelectFds d)) = 1%R
    /\ (dot (XYZ d) (desired_pos d)
        <= dot (XYZ (dummy_prepareSelectFds d)) (desired_pos d))%R
    /\ ((-1 < dot (XYZ d) (desired_pos d) < 1)%R ->
        (dot (XYZ d) (desired_pos d)
         < dot (XYZ (dummy_prepareSelectFds d)) (desired_pos d))%R)
    /\ (XYZ d = desired_pos d -> dummy_prepareSelectFds d = d)
    /\ (XYZ d = vec_scale (desired_pos d) (-1) -> dummy_prepareSelectFds d = d).
Proof.
  intros [x t]. cbn [XYZ desired_pos]. intros Hx Ht.
  pose proof (dot_unit_bounds x t Hx Ht) as Hc.
  pose proof (lengthSquared_tick x t) as Hlq. rewrite Hx, Ht in Hlq.
  pose proof (dot_tick x t) as Hd. rewrite Ht in Hd.
  unfold dummy_prepareSelectFds. cbn [XYZ desired_pos].
  set (v := vec_add (vec_scale x 31) t) in *.
  set (c := dot x t) in *.
  assert (Hpos : (0 < lengthSquared v)%R) by lra.
  destruct (Rlt_dec 0 (lengthSquared v)) as [_|N]; [|contradiction].
  cbn [XYZ desired_pos].
  pose proof (sqrt_lt_R0 _ Hpos) as Hs.
  pose proof (sqrt_sqrt (lengthSquared v) (Rlt_le _ _ Hpos)) as Hq.
  set (s := sqrt (lengthSquared v)) in *.
  assert (Hs30 : (30 <= s <= 32)%R) by (split; nra).
  assert (Hr : (0 < 1 / s)%R) by (apply Rdiv_lt_0_compat; lra).
  assert (Hsr : (s * (1 / s) = 1)%R) by (field; lra).
  assert (Hcs : (62 * c = s * s - 962)%R) by lra.
  assert (Hgap : (62 * ((31 * c + 1) - c * s)
                  = (s - 30) * (32 - s) * (s + 31))%R).
  { replace (62 * (31 * c + 1 - c * s))%R
      with (31 * (62 * c) + 62 - (62 * c) * s)%R by ring.
    rewrite Hcs. ring. }
  assert (Hc' : (c = (1 / s) * (c * s))%R).
  { transitivity (c * (s * (1 / s)))%R; [rewrite Hsr; ring|ring]. }
  rewrite dot_scale_l, Hd.
  splits.
  - reflexivity.
  - now apply lengthSquared_normalized.
  - rewrite Hc' at 1. apply Rmult_le_compat_l; [lra|].
    assert (0 <= (s - 30) * (32 - s) * (s + 31))%R
      by (apply Rmult_le_pos; [apply Rmult_le_pos|]; lra).
    lra.
  - intros [Hlo Hhi]. rewrite Hc' at 1. apply Rmult_lt_compat_l; [lra|].
    assert (30 < s)%R by nra. assert (s < 32)%R by nra.
    assert (0 < (s - 30) * (32 - s) * (s + 31))%R
      by (apply Rmult_lt_0_compat; [apply Rmult_lt_0_compat|]; lra).
    lra.
  - intros ->. f_equal.
    assert (E : v = vec_scale t 32)
      by (subst v; apply vec_eq; cbn; ring).
    subst s. rewrite E.
    exact (proj1 (normalize_scaled_unit t 32 Ht ltac:(lra))).
  - intros E0. f_equal.
    assert (E : v = vec_scale x 30)
      by (subst v; rewrite E0; apply vec_eq; cbn; ring).
    subst s. rewrite E.
    exact (proj1 (normalize_scaled_unit x 30 Hx ltac:(lra))).
Qed.

Lemma dummy_prepareSelectFds_approaches_target_witness :
  lengthSquared
    (XYZ (dummy_prepareSelectFds
            (mkTelescopeDummy (mkVec3d 1 0 0) (mkVec3d 0 1 0)))) = 1%R
  /\ (0 < dot (XYZ (dummy_prepareSelectFds
                      (mkTelescopeDummy (mkVec3d 1 0 0) (mkVec3d 0 1 0))))
               (mkVec3d 0 1 0))%R.
Proof.
  assert (U1 : lengthSquared (mkVec3d 1 0 0) = 1%R)
    by (unfold lengthSquared; cbn; ring).
  assert (U2 : lengthSquared (mkVec3d 0 1 0) = 1%R)
    by (unfold lengthSquared; cbn; ring).
  destruct (dummy_prepareSelectFds_approaches_target
              (mkTelescopeDummy (mkVec3d 1 0 0) (mkVec3d 0 1 0)) U1 U2)
    as (_ & Hu & _ & Hlt & _).
  split; [exact Hu|].
  cbn [XYZ desired_pos] in Hlt.
  assert (Z0 : dot (mkVec3d 1 0 0) (mkVec3d 0 1 0) = 0%R)
    by (unfold dot; cbn; ring).
  rewrite Z0 in Hlt. apply Hlt. lra.
Defined.

(** ** One report only *)

(** X19: after a hangup and one position report, received at a clock value
    other than the sentinel, the direction answered is the reported one
    whatever the time of the query and the delay of the client: with the
    slot before the current one unset nothing is interpolated. *)
Theorem getObsJ2000Pos_single_sample :
  forall (t0 : TelescopeTcp) (s : Sample) (get_now : Z),
    smp_now s <> UNSET_MICROS ->
    getObsJ2000Pos (insert_sample (fst (hangup t0)) s) get_now
    = sphe_to_rect (smp_ra s) (smp_dec s)
    /\ hasKnownPosition (insert_sample (fst (hangup t0)) s) = true.
Proof.
  intros t0 s get_now Hs.
  pose proof (history_holds_insert _ [] s (history_holds_hangup t0)) as Hh.
  cbn [app] in Hh. destruct Hh as (Hlen & Hptr & Hslots).
  set (t := insert_sample (fst (hangup t0)) s) in *.
  pose proof (Hslots 0%nat ltac:(lia)) as H0.
  pose proof (Hslots 1%nat ltac:(lia)) as H1.
  cbn [rev app map nth] in H0, H1. rewrite <- slot_current in H0.
  assert (Hcur : (client_micros (slot t (position_pointer t)) =? UNSET_MICROS)
                 = false).
  { rewrite H0. cbn [sample_position client_micros].
    now apply Z.eqb_neq. }
  split.
  - unfold getObsJ2000Pos. rewrite Hcur.
    rewrite (scan_back_stops_at_unset t _ 0 Hptr ltac:(lia)).
    + rewrite <- slot_current, H0. reflexivity.
    + intros j Hj. lia.
    + rewrite H1. reflexivity.
  - unfold hasKnownPosition. rewrite Hcur. reflexivity.
Qed.

Lemma getObsJ2000Pos_single_sample_witness :
  getObsJ2000Pos (insert_sample (fst (hangup example_client)) default_sample)
    123456789
  = sphe_to_rect (smp_ra default_sample) (smp_dec default_sample).
Proof.
  refine (proj1 (getObsJ2000Pos_single_sample example_client default_sample
                   123456789 _)).
  vm_compute. discriminate.
Defined.

(** ** Sessions in which the hypotheses above hold *)

Lemma run_direction_unit_or_zero_witness :
  hasKnownPosition (fst (run example_session example_client)) = true
  /\ lengthSquared
       (getObsJ2000Pos (fst (run example_session example_client)) 7) = 1%R.
Proof.
  assert (H : hasKnownPosition (fst (run example_session example_client)) = true)
    by (vm_compute; reflexivity).
  split; [exact H|].
  exact (proj1 (run_direction_unit_or_zero loopback_resolver
                  "127.0.0.1:10001:500000"%string example_session 7) H).
Defined.

Lemma prepareSelectFds_interest_witness :
  prepareSelectFds (mkConnectAnswers 9 4 0 0 EINPROGRESS) (mkSelectFds [] [] 0)
    connected_client
  = (connected_client, mkSelectFds [3] [] 3, []).
Proof.
  refine (eq_trans
            (proj2 (prepareSelectFds_interest (mkConnectAnswers 9 4 0 0 EINPROGRESS)
                      (mkSelectFds [] [] 0) connected_client) _) _);
    reflexivity.
Defined.
